(** * WanderWord: the provider dispatch layer, the CLI tool and the relay

    A shallow embedding of the parts of the repository that decide the
    behaviour of JSON extraction, backend dispatch, the mock backend, the
    playback index and the relay routes:

    - [src/cli/etymology.ts]      ([callCliAgent], [extractJson])
    - [src/services/aiProvider.ts] (adapters, mock backend, dispatcher)
    - [App.tsx]                   (playback handlers)
    - [server/api.ts]             (relay routes)

    JavaScript strings are sequences of UTF-16 code units, values are the
    dynamically typed values the erased TypeScript types stand for, and the
    outside world (network, subprocesses, the host's PATH) is an explicit
    argument of every function that touches it. *)

From Stdlib Require Import ZArith NArith List String Ascii Bool Lia.
Import ListNotations.

Set Implicit Arguments.

(** ** JavaScript strings *)

Module Js.

(** A string is its list of UTF-16 code units. *)
Definition jsstring := list N.

(** ASCII literals. *)
Fixpoint lit (s : string) : jsstring :=
  match s with
  | EmptyString => []
  | String c s' => N_of_ascii c :: lit s'
  end.

(** Code units used by name. *)
Definition c_quote : N := 34.      (* the double quote *)
Definition c_backtick : N := 96.
Definition c_backslash : N := 92.
Definition c_lbrace : N := 123.
Definition c_rbrace : N := 125.
Definition c_newline : N := 10.

(** ASCII literals that contain double quotes are written with a backtick
    in place of each double quote. *)
Definition litq (s : string) : jsstring :=
  map (fun c => if N.eqb c c_backtick then c_quote else c) (lit s).

Fixpoint str_eqb (a b : jsstring) : bool :=
  match a, b with
  | [], [] => true
  | x :: a', y :: b' => N.eqb x y && str_eqb a' b'
  | _, _ => false
  end.

(** [String.prototype.toLowerCase]. Code units outside ASCII are left as
    they are: the Unicode case tables are not modelled, and no identifier
    compared against a lowered string here contains a letter that is the
    image of a non-ASCII one. *)
Definition lower_unit (c : N) : N :=
  if (N.leb 65 c && N.leb c 90)%bool then (c + 32)%N else c.

Definition toLowerCase (s : jsstring) : jsstring := map lower_unit s.

(** [s.replace(/c/g, by)] for a one-unit pattern. *)
Definition replace_all (c : N) (by_ : jsstring) (s : jsstring) : jsstring :=
  flat_map (fun x => if N.eqb x c then by_ else [x]) s.

(** Decimal rendering of an integer, as template literals and [String(n)]
    render it. *)
Fixpoint digits_of_pos (fuel : nat) (n : N) (acc : jsstring) : jsstring :=
  match fuel with
  | O => acc
  | S f =>
      let acc' := (48 + N.modulo n 10)%N :: acc in
      if N.ltb n 10 then acc' else digits_of_pos f (N.div n 10) acc'
  end.

Definition string_of_N (n : N) : jsstring :=
  digits_of_pos (S (N.to_nat (N.log2 n))) n [].

Definition string_of_Z (z : Z) : jsstring :=
  match z with
  | Z0 => lit "0"
  | Zpos p => string_of_N (Npos p)
  | Zneg p => 45%N :: string_of_N (Npos p)
  end.

(** JavaScript truthiness of a string: only the empty string is falsy. *)
Definition truthy_string (s : jsstring) : bool :=
  match s with [] => false | _ :: _ => true end.

(** [String.prototype.toUpperCase], on ASCII as [toLowerCase] above; the
    properties stated over it are about ASCII text. *)
Definition upper_unit (c : N) : N :=
  if (N.leb 97 c && N.leb c 122)%bool then (c - 32)%N else c.

Definition toUpperCase (s : jsstring) : jsstring := map upper_unit s.

(** The white space and line terminators that [trim] and [parseInt] skip. *)
Definition is_str_ws (c : N) : bool :=
  (N.eqb c 9 || N.eqb c 10 || N.eqb c 11 || N.eqb c 12 || N.eqb c 13
   || N.eqb c 32 || N.eqb c 160 || N.eqb c 5760
   || (N.leb 8192 c && N.leb c 8202)
   || N.eqb c 8232 || N.eqb c 8233 || N.eqb c 8239 || N.eqb c 8287
   || N.eqb c 12288 || N.eqb c 65279)%bool.

Fixpoint drop_ws (s : jsstring) : jsstring :=
  match s with
  | c :: s' => if is_str_ws c then drop_ws s' else s
  | [] => []
  end.

(** [String.prototype.trim] *)
Definition trim (s : jsstring) : jsstring :=
  rev (drop_ws (rev (drop_ws s))).

(** The values of the decimal digits at the head of a string. *)
Fixpoint digit_prefix (s : jsstring) : list N :=
  match s with
  | c :: s' => if (N.leb 48 c && N.leb c 57)%bool then (c - 48)%N :: digit_prefix s' else []
  | [] => []
  end.

Definition Z_of_decimal (ds : list N) : Z :=
  fold_left (fun acc d => acc * 10 + Z.of_N d)%Z ds 0%Z.

(** [parseInt(s, 10)]: leading white space, an optional sign, then the
    digits up to the first other unit; [None] is NaN. *)
Definition parseInt (s : jsstring) : option Z :=
  let s1 := drop_ws s in
  let (sign, s2) :=
    match s1 with
    | c :: r =>
        if N.eqb c 45 then ((-1)%Z, r)
        else if N.eqb c 43 then (1%Z, r)
        else (1%Z, s1)
    | [] => (1%Z, s1)
    end in
  match digit_prefix s2 with
  | [] => None
  | ds => Some (sign * Z_of_decimal ds)%Z
  end.

(** [String.fromCodePoint(cp)]: one unit in the basic plane, a surrogate
    pair above it. *)
Definition fromCodePoint (cp : N) : jsstring :=
  if N.ltb cp 65536 then [cp]
  else [ (55296 + N.shiftr (cp - 65536) 10)%N; (56320 + N.land (cp - 65536) 1023)%N ].

End Js.
Import Js.

(** ** Values *)

(** A number is kept as an exact decimal [mant * 10^expo], normalised so
    that [mant] has no trailing zero. Rounding to a 64-bit float, NaN, the
    infinities and the sign of zero are not modelled. *)
Record number : Type := Num { mant : Z; expo : Z }.


Fixpoint normalize (fuel : nat) (m e : Z) : number :=
  match fuel with
  | O => Num m e
  | S f =>
      if Z.eqb m 0 then Num 0 0
      else if Z.eqb (Z.modulo m 10) 0 then normalize f (Z.div m 10) (e + 1)
      else Num m e
  end.

Definition num_of_Z (z : Z) : number :=
  normalize (S (Z.to_nat (Z.log2 (Z.abs z)))) z 0.

(** Runtime values. [VNative] stands for the built-in objects reachable
    through [Object.prototype] (the [Object] constructor, the prototype
    itself and its methods): opaque and truthy. *)
#[local] Unset Elimination Schemes.
Inductive value : Type :=
| VUndefined
| VNull
| VBool (b : bool)
| VNum (n : number)
| VStr (s : jsstring)
| VArr (items : list value)
| VObj (props : list (jsstring * value))
| VNative (name : jsstring).
#[local] Set Elimination Schemes.

Definition truthy (v : value) : bool :=
  match v with
  | VUndefined | VNull => false
  | VBool b => b
  | VNum n => negb (Z.eqb (mant n) 0)
  | VStr s => truthy_string s
  | VArr _ | VObj _ | VNative _ => true
  end.

(** ** Exceptions *)

(** Why [child_process.execSync] threw. *)
Inductive exec_reason : Type :=
| NonZeroExit (status : Z)
| TimedOut                      (* killed when the [timeout] option elapsed *)
| SpawnFailure.

(** The error object [execSync] throws: it carries what the child had
    written to its standard output before it ended. *)
Record exec_failure : Type := ExecFailure {
  reason : exec_reason;
  stdout : option jsstring
}.

Inductive error : Type :=
| Error (message : jsstring)      (* [new Error(message)] *)
| SyntaxError                     (* thrown by [JSON.parse] *)
| TypeError                       (* property read on undefined or null *)
| ChildProcessError (e : exec_failure)
| Rejected (why : jsstring).      (* a rejected [fetch] or SDK promise *)

Inductive result (A : Type) : Type :=
| Ok (a : A)
| Thrown (e : error).
Arguments Thrown {A} e.

Definition rbind {A B} (r : result A) (k : A -> result B) : result B :=
  match r with
  | Ok a => k a
  | Thrown e => Thrown e
  end.

Declare Scope result_scope.
Delimit Scope result_scope with result.
Notation "x <- r ;; k" := (rbind r (fun x => k))
  (at level 61, r at next level, right associativity) : result_scope.

(** [try { body } catch (e) { handler(e) }] *)
Definition try_catch {A} (body : result A) (handler : error -> result A) : result A :=
  match body with
  | Ok a => Ok a
  | Thrown e => handler e
  end.

(** [xs.map(f)] for a callback that may throw. *)
Fixpoint map_result {A B} (f : A -> result B) (xs : list A) : result (list B) :=
  match xs with
  | [] => Ok []
  | x :: rest =>
      rbind (f x) (fun y => rbind (map_result f rest) (fun ys => Ok (y :: ys)))
  end.

(** ** Property access *)

Fixpoint own_property (props : list (jsstring * value)) (k : jsstring) : option value :=
  match props with
  | [] => None
  | (k', v) :: rest => if str_eqb k' k then Some v else own_property rest k
  end.

(** The property names every plain object inherits from [Object.prototype]. *)
Definition Object_prototype_names : list jsstring :=
  map lit [ "constructor"; "__defineGetter__"; "__defineSetter__";
            "hasOwnProperty"; "__lookupGetter__"; "__lookupSetter__";
            "isPrototypeOf"; "propertyIsEnumerable"; "toString"; "valueOf";
            "__proto__"; "toLocaleString" ]%string.

Definition inherited_property (k : jsstring) : option value :=
  if existsb (str_eqb k) Object_prototype_names then Some (VNative k) else None.

(** [obj[k]] on a plain object: own properties first, then the prototype. *)
Definition object_get (props : list (jsstring * value)) (k : jsstring) : value :=
  match own_property props k with
  | Some v => v
  | None =>
      match inherited_property k with
      | Some v => v
      | None => VUndefined
      end
  end.

(** [v.k] for a property name [k]: a [TypeError] on undefined and null,
    [length] on arrays and strings, [undefined] for what is not there. *)
Definition get (v : value) (k : jsstring) : result value :=
  match v with
  | VUndefined | VNull => Thrown TypeError
  | VObj props => Ok (object_get props k)
  | VArr items =>
      if str_eqb k (lit "length") then Ok (VNum (num_of_Z (Z.of_nat (List.length items))))
      else Ok VUndefined
  | VStr s =>
      if str_eqb k (lit "length") then Ok (VNum (num_of_Z (Z.of_nat (List.length s))))
      else Ok VUndefined
  | VBool _ | VNum _ | VNative _ => Ok VUndefined
  end.

(** [v[i]] for an index [i]. *)
Definition get_index (v : value) (i : nat) : result value :=
  match v with
  | VUndefined | VNull => Thrown TypeError
  | VArr items => Ok (nth i items VUndefined)
  | VStr s => Ok (match nth_error s i with Some c => VStr [c] | None => VUndefined end)
  | _ => Ok VUndefined
  end.

(** [v?.k] *)
Definition get_opt (v : value) (k : jsstring) : value :=
  match get v k with
  | Ok x => x
  | Thrown _ => VUndefined
  end.

(** ** Regular expressions *)

(** The two kinds of atom the source's patterns are made of: one literal
    code unit, and [[\s\S]*], a greedy run of arbitrary code units. *)
Inductive atom : Type :=
| RChar (c : N)
| RAnyStar.

Definition regex := list atom.

(** Backtracking match of a pattern at the head of the subject. The greedy
    star first tries to take one more unit and falls back to the rest of
    the pattern only when the longer attempt fails. *)
Fixpoint match_here (p : regex) : jsstring -> option jsstring :=
  match p with
  | [] => fun _ => Some []
  | RChar c :: p' => fun s =>
      match s with
      | x :: s' => if N.eqb x c then option_map (cons x) (match_here p' s') else None
      | [] => None
      end
  | RAnyStar :: p' =>
      fix star (s : jsstring) : option jsstring :=
        match s with
        | [] => match_here p' []
        | x :: s' =>
            match star s' with
            | Some m => Some (x :: m)
            | None => match_here p' s
            end
        end
  end.

(** [s.match(re)] for a pattern without the global flag: the match at the
    leftmost start position that has one, or [null]. The result is element
    0 of the match array. *)
Fixpoint str_match (p : regex) (s : jsstring) : option jsstring :=
  match match_here p s with
  | Some m => Some m
  | None =>
      match s with
      | [] => None
      | _ :: s' => str_match p s'
      end
  end.

(** [/\{[\s\S]*\}/] *)
Definition json_object_re : regex := [RChar c_lbrace; RAnyStar; RChar c_rbrace].

(** ** JSON.parse *)

Module JSON.

Definition is_ws (c : N) : bool :=
  (N.eqb c 32 || N.eqb c 9 || N.eqb c 10 || N.eqb c 13)%bool.

Fixpoint skip_ws (s : jsstring) : jsstring :=
  match s with
  | c :: s' => if is_ws c then skip_ws s' else s
  | [] => []
  end.

Definition is_digit (c : N) : bool := (N.leb 48 c && N.leb c 57)%bool.

Definition hex_val (c : N) : option N :=
  if (N.leb 48 c && N.leb c 57)%bool then Some (c - 48)%N
  else if (N.leb 65 c && N.leb c 70)%bool then Some (c - 55)%N
  else if (N.leb 97 c && N.leb c 102)%bool then Some (c - 87)%N
  else None.

Definition hex4 (a b c d : N) : option N :=
  match hex_val a, hex_val b, hex_val c, hex_val d with
  | Some x, Some y, Some z, Some w => Some (((x * 16 + y) * 16 + z) * 16 + w)%N
  | _, _, _, _ => None
  end.

(** The characters of a string after its opening quote, up to and without
    the closing one, with escapes decoded. *)
Fixpoint parse_string (s : jsstring) : option (jsstring * jsstring) :=
  match s with
  | [] => None
  | 34%N :: rest => Some ([], rest)
  | 92%N :: 117%N :: a :: b :: c :: d :: rest =>
      match hex4 a b c d, parse_string rest with
      | Some u, Some (str, rest') => Some (u :: str, rest')
      | _, _ => None
      end
  | 92%N :: e :: rest =>
      let unit :=
        if N.eqb e 34 then Some 34%N
        else if N.eqb e 92 then Some 92%N
        else if N.eqb e 47 then Some 47%N
        else if N.eqb e 98 then Some 8%N
        else if N.eqb e 102 then Some 12%N
        else if N.eqb e 110 then Some 10%N
        else if N.eqb e 114 then Some 13%N
        else if N.eqb e 116 then Some 9%N
        else None in
      match unit, parse_string rest with
      | Some u, Some (str, rest') => Some (u :: str, rest')
      | _, _ => None
      end
  | 92%N :: [] => None
  | c :: rest =>
      if N.ltb c 32 then None
      else
        match parse_string rest with
        | Some (str, rest') => Some (c :: str, rest')
        | None => None
        end
  end.

(** The longest prefix of decimal digits, as digit values. *)
Fixpoint take_digits (s : jsstring) : list Z * jsstring :=
  match s with
  | c :: s' =>
      if is_digit c then
        let (ds, rest) := take_digits s' in (Z.of_N (c - 48) :: ds, rest)
      else ([], s)
  | [] => ([], [])
  end.

Definition Z_of_digits (ds : list Z) : Z :=
  fold_left (fun acc d => acc * 10 + d)%Z ds 0%Z.

(** [int frac? exp?] after an optional minus sign. *)
Definition parse_number (s : jsstring) : option (number * jsstring) :=
  let (neg, s0) := match s with 45%N :: r => (true, r) | _ => (false, s) end in
  let (ints, s1) := take_digits s0 in
  match ints with
  | [] => None
  | d :: more =>
      if (Z.eqb d 0 && negb (Nat.eqb (List.length more) 0))%bool then None
      else
        let frac_part :=
          match s1 with
          | 46%N :: r =>
              let (fs, r') := take_digits r in
              match fs with [] => None | _ => Some (fs, r') end
          | _ => Some ([], s1)
          end in
        match frac_part with
        | None => None
        | Some (fracs, s2) =>
            let exp_part :=
              match s2 with
              | c :: r =>
                  if (N.eqb c 101 || N.eqb c 69)%bool then
                    let (sign, r0) :=
                      match r with
                      | 43%N :: r1 => (1%Z, r1)
                      | 45%N :: r1 => ((-1)%Z, r1)
                      | _ => (1%Z, r)
                      end in
                    let (es, r') := take_digits r0 in
                    match es with
                    | [] => None
                    | _ => Some ((sign * Z_of_digits es)%Z, r')
                    end
                  else Some (0%Z, s2)
              | [] => Some (0%Z, s2)
              end in
            match exp_part with
            | None => None
            | Some (e, s3) =>
                let m := Z_of_digits (ints ++ fracs) in
                let m' := if neg then (- m)%Z else m in
                Some (normalize (List.length (ints ++ fracs)) m'
                                (e - Z.of_nat (List.length fracs))%Z, s3)
            end
        end
  end.

(** Defining a property: a repeated key keeps its first position and takes
    the last value. *)
Fixpoint set_property (props : list (jsstring * value)) (k : jsstring) (v : value)
  : list (jsstring * value) :=
  match props with
  | [] => [(k, v)]
  | (k', v') :: rest =>
      if str_eqb k' k then (k', v) :: rest else (k', v') :: set_property rest k v
  end.

Definition expect (w : string) (s : jsstring) : option jsstring :=
  let l := lit w in
  if str_eqb (firstn (List.length l) s) l then Some (skipn (List.length l) s) else None.

(** One value at the head of [s] (no leading white space), and what
    follows it. Every recursive call is made after at least one code unit
    has been consumed, so fuel above the length of the text is never
    exhausted. *)
Fixpoint parse_value (fuel : nat) (s : jsstring) : option (value * jsstring) :=
  match fuel with
  | O => None
  | S f =>
      match s with
      | 123%N :: r =>
          match skip_ws r with
          | 125%N :: r' => Some (VObj [], r')
          | r' => parse_members f r' []
          end
      | 91%N :: r =>
          match skip_ws r with
          | 93%N :: r' => Some (VArr [], r')
          | r' => parse_elements f r' []
          end
      | 34%N :: r =>
          match parse_string r with
          | Some (str, r') => Some (VStr str, r')
          | None => None
          end
      | 116%N :: _ => option_map (pair (VBool true)) (expect "true" s)
      | 102%N :: _ => option_map (pair (VBool false)) (expect "false" s)
      | 110%N :: _ => option_map (pair VNull) (expect "null" s)
      | _ =>
          match parse_number s with
          | Some (n, r) => Some (VNum n, r)
          | None => None
          end
      end
  end

(** [string : value] pairs up to the closing brace; [s] starts at a key. *)
with parse_members (fuel : nat) (s : jsstring) (acc : list (jsstring * value))
  : option (value * jsstring) :=
  match fuel with
  | O => None
  | S f =>
      match s with
      | 34%N :: r =>
          match parse_string r with
          | Some (k, r1) =>
              match skip_ws r1 with
              | 58%N :: r2 =>
                  match parse_value f (skip_ws r2) with
                  | Some (v, r3) =>
                      match skip_ws r3 with
                      | 44%N :: r4 => parse_members f (skip_ws r4) (set_property acc k v)
                      | 125%N :: r4 => Some (VObj (set_property acc k v), r4)
                      | _ => None
                      end
                  | None => None
                  end
              | _ => None
              end
          | None => None
          end
      | _ => None
      end
  end

(** Values up to the closing bracket; [s] starts at a value. *)
with parse_elements (fuel : nat) (s : jsstring) (acc : list value)
  : option (value * jsstring) :=
  match fuel with
  | O => None
  | S f =>
      match parse_value f s with
      | Some (v, r) =>
          match skip_ws r with
          | 44%N :: r' => parse_elements f (skip_ws r') (acc ++ [v])
          | 93%N :: r' => Some (VArr (acc ++ [v]), r')
          | _ => None
          end
      | None => None
      end
  end.

(** [JSON.parse(text)]: one value between optional white space, or a
    [SyntaxError]. *)
Definition parse (text : jsstring) : result value :=
  match parse_value (2 + List.length text) (skip_ws text) with
  | Some (v, rest) =>
      match skip_ws rest with
      | [] => Ok v
      | _ :: _ => Thrown SyntaxError
      end
  | None => Thrown SyntaxError
  end.

End JSON.

(** ** ToString *)

(** [Number::toString] on the exact decimal: with [k] digits [ds] and
    [n = k + expo], plain notation for [-6 < n <= 21] and exponent
    notation outside. *)
Definition number_to_string (x : number) : jsstring :=
  if Z.eqb (mant x) 0 then lit "0"
  else
    let sign := if Z.ltb (mant x) 0 then lit "-" else [] in
    let ds := string_of_Z (Z.abs (mant x)) in
    let k := Z.of_nat (List.length ds) in
    let n := (k + expo x)%Z in
    let zeros (z : Z) := repeat 48%N (Z.to_nat z) in
    sign ++
    (if (Z.leb k n && Z.leb n 21)%bool then ds ++ zeros (n - k)%Z
     else if (Z.ltb 0 n && Z.leb n 21)%bool then
       firstn (Z.to_nat n) ds ++ lit "." ++ skipn (Z.to_nat n) ds
     else if (Z.ltb (-6) n && Z.leb n 0)%bool then
       lit "0." ++ zeros (- n)%Z ++ ds
     else
       let e := (n - 1)%Z in
       let etext := (if Z.ltb e 0 then lit "e-" else lit "e+") ++ string_of_Z (Z.abs e) in
       match ds with
       | [d] => [d] ++ etext
       | d :: more => [d] ++ lit "." ++ more ++ etext
       | [] => []
       end).

(** The abstract operation [ToString]. An object whose own [toString] or
    [valueOf] shadows the inherited method with a value that cannot be
    called has no primitive value. *)
Fixpoint ToString (v : value) : result jsstring :=
  match v with
  | VUndefined => Ok (lit "undefined")
  | VNull => Ok (lit "null")
  | VBool true => Ok (lit "true")
  | VBool false => Ok (lit "false")
  | VNum n => Ok (number_to_string n)
  | VStr s => Ok s
  | VArr items =>
      (fix join (l : list value) : result jsstring :=
         match l with
         | [] => Ok []
         | x :: rest =>
             let head :=
               match x with
               | VUndefined | VNull => Ok []
               | _ => ToString x
               end in
             match head, rest with
             | Thrown e, _ => Thrown e
             | Ok h, [] => Ok h
             | Ok h, _ :: _ =>
                 match join rest with
                 | Ok t => Ok (h ++ lit "," ++ t)
                 | Thrown e => Thrown e
                 end
             end
         end) items
  | VObj props =>
      match own_property props (lit "toString") with
      | Some _ => Thrown TypeError
      | None => Ok (lit "[object Object]")
      end
  | VNative name =>
      if str_eqb name (lit "__proto__") then Ok (lit "[object Object]")
      else Ok (lit "function " ++ name ++ lit "() { [native code] }")
  end.

(** [new Error(message)] *)
Definition new_Error (message : value) : result error :=
  match message with
  | VUndefined => Ok (Error [])
  | _ => rbind (ToString message) (fun m => Ok (Error m))
  end.

(** [a || b] *)
Definition or_else (a b : value) : value := if truthy a then a else b.

(** [JSON.parse(v)]: the argument is converted to a string first. *)
Definition JSON_parse (v : value) : result value :=
  rbind (ToString v) JSON.parse.

(** * src/cli/etymology.ts *)

Module Etymology.

Definition SYSTEM_INSTRUCTION : jsstring := litq
"You are an expert etymologist and historical linguist. When given a word, return its geographic and linguistic journey through history as structured JSON.

Guidelines:
- Coordinates must be [longitude, latitude] format (longitude first for GeoJSON compatibility)
- Include 3-8 waypoints for most words, capturing major linguistic transitions.
- For the journey array, order chronologically (order: 1 is first stop after origin).
- Be historically accurate - if uncertain, note approximations.
- routeType should reflect how the word likely traveled TO that location.
- For each location, provide a name and the ISO 3166-1 alpha-2 country code.

IMPORTANT: Return ONLY valid JSON matching this schema:
{
  `word`: `string`,
  `currentMeaning`: `string`,
  `origin`: {
    `word`: `string`,
    `language`: `string`,
    `meaning`: `string`,
    `location`: { `name`: `string`, `countryCode`: `string`, `coordinates`: [lon, lat] },
    `century`: `string`
  },
  `journey`: [{
    `order`: number,
    `word`: `string`,
    `language`: `string`,
    `pronunciation`: `string (optional)`,
    `location`: { `name`: `string`, `countryCode`: `string`, `coordinates`: [lon, lat] },
    `century`: `string`,
    `routeType`: `land` | `sea`,
    `notes`: `string`
  }],
  `narrative`: `string`,
  `routeSummary`: `string`,
  `funFact`: `string (optional)`
}".

(** The options object passed to [execSync]. *)
Record exec_options : Type := ExecOptions {
  encoding : jsstring;
  maxBuffer : Z;
  timeout : Z          (* milliseconds *)
}.

Section Host.

(** The host the tool runs on: the directory of the agent scripts (from
    the environment), [path.join], and [child_process.execSync], which
    returns the child's standard output or throws. *)
Variable CLI_AGENTS_PATH : jsstring.
Variable path_join : jsstring -> jsstring -> jsstring.
Variable execSync : jsstring -> exec_options -> result jsstring.

(** [callCliAgent]. The progress line printed to the console is left out. *)
Definition callCliAgent (word model : jsstring) (timeout : Z) : result jsstring :=
  let prompt :=
    lit "Trace the etymological journey of the word: " ++ [c_quote] ++ word ++ [c_quote]
    ++ [c_newline; c_newline] ++ SYSTEM_INSTRUCTION ++ [c_newline; c_newline]
    ++ lit "Return ONLY the JSON object, no other text." in
  let cliCallerPath := path_join CLI_AGENTS_PATH (lit "cli_caller.py") in
  let escapedPrompt :=
    replace_all c_newline (lit "\n")
      (replace_all c_quote [c_backslash; c_quote] prompt) in
  let cmd :=
    lit "python3 " ++ [c_quote] ++ cliCallerPath ++ [c_quote]
    ++ lit " --model " ++ model
    ++ lit " --prompt " ++ [c_quote] ++ escapedPrompt ++ [c_quote]
    ++ lit " --timeout " ++ string_of_Z timeout in
  try_catch
    (execSync cmd (ExecOptions (lit "utf-8") (10 * 1024 * 1024) ((timeout + 10) * 1000)))
    (fun error =>
       match error with
       | ChildProcessError e =>
           match stdout e with
           | Some out => if truthy_string out then Ok out else Thrown error
           | None => Thrown error
           end
       | _ => Thrown error
       end).

(** [extractJson] *)
Definition extractJson (text : jsstring) : result value :=
  match str_match json_object_re text with
  | None => Thrown (Error (lit "No valid JSON found in response"))
  | Some jsonMatch => JSON.parse jsonMatch
  end.

(** The [try] block of [main] up to the parsed data; what follows only
    prints it. *)
Definition main_data (word model : jsstring) (timeout : Z) : result value :=
  rbind (callCliAgent word model timeout) extractJson.

End Host.

(** The parsed command line; a [timeout] that is not a number is [None]. *)
Record Args : Type := MkArgs {
  arg_word : jsstring;
  arg_model : jsstring;
  arg_timeout : option Z
}.

(** The [for] loop of [parseArgs] from index [i] on, over [args.slice(i)]:
    an option with a non-empty value after it takes the value and skips
    it; anything else is passed over. *)
Fixpoint parse_options (rest : list jsstring) (result : Args) : Args :=
  match rest with
  | [] => result
  | a :: rest' =>
      match rest' with
      | v :: rest'' =>
          if (str_eqb a (lit "--model") && truthy_string v)%bool then
            parse_options rest'' (MkArgs (arg_word result) v (arg_timeout result))
          else if (str_eqb a (lit "--timeout") && truthy_string v)%bool then
            parse_options rest'' (MkArgs (arg_word result) (arg_model result) (parseInt v))
          else parse_options rest' result
      | [] => result
      end
  end.

(** [parseArgs] on [process.argv.slice(2)]: [None] when the help text is
    printed and the process exits with status 0. *)
Definition parseArgs (args : list jsstring) : option Args :=
  match args with
  | [] => None
  | first :: rest =>
      if (str_eqb first (lit "--help") || str_eqb first (lit "-h"))%bool then None
      else Some (parse_options rest (MkArgs first (lit "gemini") (Some 60%Z)))
  end.

End Etymology.

(** * src/services/aiProvider.ts *)

Module AiProvider.

Definition SYSTEM_INSTRUCTION : jsstring := litq
"You are an expert etymologist and historical linguist. When given a word, return its geographic and linguistic journey through history as structured JSON.

Guidelines:
- Coordinates must be [longitude, latitude] format (longitude first for GeoJSON compatibility)
- Include 3-8 waypoints for most words, capturing major linguistic transitions.
- For the journey array, order chronologically (order: 1 is first stop after origin).
- Be historically accurate - if uncertain, note approximations.
- routeType should reflect how the word likely traveled TO that location.
- For each location, provide a name and the ISO 3166-1 alpha-2 country code.
- For words with multiple etymology paths (like `tea`), choose the most historically significant route but mention alternatives in the narrative.
- If a word has no clear geographic journey (coined recently, technical term, etc.), return fewer waypoints with the origin and current usage location.

IMPORTANT: Return ONLY valid JSON matching the schema. No markdown, no explanations.".

Definition JSON_SCHEMA : jsstring := litq
"{
  `word`: `string`,
  `currentMeaning`: `string - brief modern definition`,
  `origin`: {
    `word`: `string - original word form`,
    `language`: `string - e.g. 'Arabic', 'Latin'`,
    `meaning`: `string - original meaning`,
    `location`: {
      `name`: `string - city/region name`,
      `countryCode`: `string - ISO 3166-1 alpha-2`,
      `coordinates`: [longitude, latitude]
    },
    `century`: `string - e.g. '15th Century'`
  },
  `journey`: [
    {
      `order`: 1,
      `word`: `string - word form in this language`,
      `language`: `string`,
      `pronunciation`: `string - IPA optional`,
      `location`: {
        `name`: `string`,
        `countryCode`: `string`,
        `coordinates`: [longitude, latitude]
      },
      `century`: `string`,
      `routeType`: `land` | `sea`,
      `notes`: `string - how/why word changed`
    }
  ],
  `narrative`: `string - 2-3 paragraphs telling the full story`,
  `routeSummary`: `string - e.g. 'SILK_ROAD' or 'MARITIME'`,
  `funFact`: `string - optional interesting tidbit`
}".

(** [buildPrompt]; the parameter default applies to an absent language. *)
Definition buildPrompt (word : jsstring) (language : option jsstring) : jsstring :=
  let language := match language with Some l => l | None => lit "English" end in
  let languageInstruction :=
    if (truthy_string language && negb (str_eqb language (lit "English")))%bool then
      [c_newline; c_newline]
      ++ lit "IMPORTANT: Write all text content (currentMeaning, narrative, notes, funFact, routeSummary) in "
      ++ language ++ lit ". Keep only the schema field names in English."
    else [] in
  lit "Trace the etymological journey of the word: " ++ [c_quote] ++ word ++ [c_quote]
  ++ [c_newline; c_newline]
  ++ SYSTEM_INSTRUCTION ++ languageInstruction
  ++ [c_newline; c_newline]
  ++ lit "Respond with JSON matching this schema:" ++ [c_newline]
  ++ JSON_SCHEMA
  ++ [c_newline; c_newline]
  ++ lit "Return ONLY the JSON object, no other text.".

(** *** Outbound calls *)

(** The arguments of [fetch]; [body] is the value handed to
    [JSON.stringify]. *)
Record request : Type := Request {
  url : jsstring;
  method : jsstring;
  headers : list (jsstring * jsstring);
  body : value
}.

(** What an adapter reads from a [Response]: [response.ok],
    [response.statusText] and the outcome of [await response.json()]. *)
Record response : Type := Response {
  ok : bool;
  statusText : jsstring;
  json : result value
}.

(** An asynchronous function as the tree of its awaited effects: a
    [fetch], a [generateContent] call of the Gemini SDK (answered by
    [result.response.text()]), or a timer. A rejected promise that the
    function does not catch ends it with the rejection. *)
Inductive prog (A : Type) : Type :=
| Ret (a : A)
| Throw (e : error)
| Fetch (req : request) (k : response -> prog A)
| GenerateContent (apiKey : jsstring) (params : value) (k : jsstring -> prog A)
| Sleep (ms : Z) (k : prog A).
Arguments Throw {A} e.
Arguments Fetch {A} req k.
Arguments GenerateContent {A} apiKey params k.
Arguments Sleep {A} ms k.

Definition lift {A} (r : result A) : prog A :=
  match r with
  | Ok a => Ret a
  | Thrown e => Throw e
  end.

(** The world an adapter talks to. *)
Record world : Type := World {
  net : request -> result response;
  gemini_sdk : jsstring -> value -> result jsstring
}.

Inductive call : Type :=
| NetworkCall (req : request)
| SdkCall (apiKey : jsstring) (params : value).

(** The promise's outcome in a given world. *)
Fixpoint run {A} (w : world) (p : prog A) : result A :=
  match p with
  | Ret a => Ok a
  | Throw e => Thrown e
  | Fetch req k =>
      match net w req with
      | Ok r => run w (k r)
      | Thrown e => Thrown e
      end
  | GenerateContent key params k =>
      match gemini_sdk w key params with
      | Ok text => run w (k text)
      | Thrown e => Thrown e
      end
  | Sleep _ k => run w k
  end.

(** The outbound calls made on the way, in order. *)
Fixpoint calls {A} (w : world) (p : prog A) : list call :=
  match p with
  | Ret _ | Throw _ => []
  | Fetch req k =>
      NetworkCall req ::
      match net w req with
      | Ok r => calls w (k r)
      | Thrown _ => []
      end
  | GenerateContent key params k =>
      SdkCall key params ::
      match gemini_sdk w key params with
      | Ok text => calls w (k text)
      | Thrown _ => []
      end
  | Sleep _ k => calls w k
  end.

(** [throw new Error(message)] *)
Definition throw_new_Error {A} (message : value) : result A :=
  match new_Error message with
  | Ok e => Thrown e
  | Thrown e => Thrown e
  end.

(** [text.match(...)] needs a string: anything else has no [match]. *)
Definition as_string (v : value) : result jsstring :=
  match v with
  | VStr s => Ok s
  | _ => Thrown TypeError
  end.

(** The extraction step the Anthropic, Ollama and CLI adapters share,
    each with its own message:
    [const jsonMatch = text.match(/\{[\s\S]*\}/);
     if (!jsonMatch) throw new Error(message);
     return JSON.parse(jsonMatch[0]);] *)
Definition extract (message : string) (text : value) : result value :=
  rbind (as_string text) (fun s =>
    match str_match json_object_re s with
    | None => Thrown (Error (lit message))
    | Some jsonMatch => JSON.parse jsonMatch
    end).

(** One property of an object literal. *)
Definition prop (k : string) (v : value) : jsstring * value := (lit k, v).
Notation "k ':=>' v" := (prop k v) (at level 70, no associativity).

Definition str (s : string) : value := VStr (lit s).

(** *** Adapters *)

(** [fetchWordJourneyGeminiAPI] *)
Definition fetchWordJourneyGeminiAPI (word apiKey : jsstring) (language : option jsstring)
  : prog value :=
  GenerateContent apiKey
    (VObj [ ("model" :=> str "gemini-2.0-flash");
           ("contents" :=> VArr [ VObj [ ("role" :=> str "user");
                                     ("parts" :=> VArr [ VObj [ ("text" :=> VStr (buildPrompt word language)) ] ]) ] ]);
           ("systemInstruction" :=> VStr SYSTEM_INSTRUCTION);
           ("generationConfig" :=> VObj [ ("responseMimeType" :=> str "application/json") ]) ])
    (fun text => lift (JSON.parse text)).

(** [fetchWordJourneyOpenAI] *)
Definition fetchWordJourneyOpenAI (word apiKey : jsstring) (language : option jsstring)
  : prog value :=
  Fetch
    (Request (lit "https://api.openai.com/v1/chat/completions") (lit "POST")
       [ (lit "Content-Type", lit "application/json");
         (lit "Authorization", lit "Bearer " ++ apiKey) ]
       (VObj [ ("model" :=> str "gpt-4o-mini");
              ("messages" :=> VArr [ VObj [ ("role" :=> str "system"); ("content" :=> VStr SYSTEM_INSTRUCTION) ];
                                  VObj [ ("role" :=> str "user"); ("content" :=> VStr (buildPrompt word language)) ] ]);
              ("response_format" :=> VObj [ ("type" :=> str "json_object") ]) ]))
    (fun response =>
       if negb (ok response) then
         lift (rbind (json response) (fun error =>
               rbind (get error (lit "error")) (fun inner =>
               throw_new_Error (or_else (get_opt inner (lit "message")) (str "OpenAI API error")))))
       else
         lift (rbind (json response) (fun data =>
               rbind (get data (lit "choices")) (fun choices =>
               rbind (get_index choices 0) (fun choice =>
               rbind (get choice (lit "message")) (fun message =>
               rbind (get message (lit "content")) JSON_parse)))))).

(** [fetchWordJourneyAnthropic] *)
Definition fetchWordJourneyAnthropic (word apiKey : jsstring) (language : option jsstring)
  : prog value :=
  Fetch
    (Request (lit "https://api.anthropic.com/v1/messages") (lit "POST")
       [ (lit "Content-Type", lit "application/json");
         (lit "x-api-key", apiKey);
         (lit "anthropic-version", lit "2023-06-01");
         (lit "anthropic-dangerous-direct-browser-access", lit "true") ]
       (VObj [ ("model" :=> str "claude-sonnet-4-20250514");
              ("max_tokens" :=> VNum (num_of_Z 4096));
              ("system" :=> VStr SYSTEM_INSTRUCTION);
              ("messages" :=> VArr [ VObj [ ("role" :=> str "user"); ("content" :=> VStr (buildPrompt word language)) ] ]) ]))
    (fun response =>
       if negb (ok response) then
         lift (rbind (json response) (fun error =>
               rbind (get error (lit "error")) (fun inner =>
               throw_new_Error (or_else (get_opt inner (lit "message")) (str "Anthropic API error")))))
       else
         lift (rbind (json response) (fun data =>
               rbind (get data (lit "content")) (fun content =>
               rbind (get_index content 0) (fun block =>
               rbind (get block (lit "text")) (fun text =>
               extract "No valid JSON in Anthropic response" text)))))).

(** [fetchWordJourneyOllama] *)
Definition fetchWordJourneyOllama (word : jsstring) (baseUrl model : option jsstring)
    (language : option jsstring) : prog value :=
  let baseUrl := match baseUrl with Some b => b | None => lit "http://localhost:11434" end in
  let model := match model with Some m => m | None => lit "llama3" end in
  Fetch
    (Request (baseUrl ++ lit "/api/generate") (lit "POST")
       [ (lit "Content-Type", lit "application/json") ]
       (VObj [ ("model" :=> VStr model);
              ("prompt" :=> VStr (buildPrompt word language));
              ("system" :=> VStr SYSTEM_INSTRUCTION);
              ("stream" :=> VBool false);
              ("format" :=> str "json") ]))
    (fun response =>
       if negb (ok response) then
         Throw (Error (lit "Ollama error: " ++ statusText response))
       else
         lift (rbind (json response) (fun data =>
               rbind (get data (lit "response")) (fun text =>
               extract "No valid JSON in Ollama response" text)))).

(** [fetchWordJourneyCLI]: the call goes to the relay's POST route. *)
Definition fetchWordJourneyCLI (word provider : jsstring) (timeout : option number)
    (language : option jsstring) : prog value :=
  let timeout := match timeout with Some t => t | None => num_of_Z 60 end in
  Fetch
    (Request (lit "/api/cli-agent") (lit "POST")
       [ (lit "Content-Type", lit "application/json") ]
       (VObj [ ("model" :=> VStr provider);
              ("prompt" :=> VStr (buildPrompt word language));
              ("timeout" :=> VNum timeout) ]))
    (fun response =>
       if negb (ok response) then
         Throw (Error (lit "CLI agent error: " ++ statusText response))
       else
         lift (rbind (json response) (fun data =>
               rbind (get data (lit "output")) (fun output =>
               extract "No valid JSON in response" output)))).

(** *** Mock data *)

Definition location (name countryCode : jsstring) (lon lat : number) : value :=
  VObj [ ("name" :=> VStr name); ("countryCode" :=> VStr countryCode);
        ("coordinates" :=> VArr [VNum lon; VNum lat]) ].

Definition step (order : Z) (word language : jsstring) (pronunciation : option jsstring)
    (loc : value) (century routeType notes : string) : value :=
  VObj ([ (lit "order", VNum (num_of_Z order)); (lit "word", VStr word);
          (lit "language", VStr language) ]
        ++ match pronunciation with
           | Some p => [ (lit "pronunciation", VStr p) ]
           | None => []
           end
        ++ [ (lit "location", loc); (lit "century", str century);
             (lit "routeType", str routeType); (lit "notes", str notes) ]).

Definition coffee : value :=
  VObj [ ("word" :=> str "coffee");
        ("currentMeaning" :=> str "A dark brown stimulating drink made from roasted and ground seeds of the coffee plant");
        ("origin" :=> VObj [ ("word" :=> str "qahwah");
                         ("language" :=> str "Arabic");
                         ("meaning" :=> str "Wine; a stimulating dark beverage");
                         ("location" :=> location (lit "Mokha, Yemen") (lit "YE") (Num 4325 (-2)) (Num 1332 (-2)));
                         ("century" :=> str "15th Century") ]);
        ("journey" :=> VArr [
           step 1 (lit "kahve") (lit "Ottoman Turkish") None
             (location (lit "Istanbul, Turkey") (lit "TR") (Num 2898 (-2)) (Num 4101 (-2)))
             "16th Century" "land" "Spread through Ottoman Empire trade routes";
           step 2 (lit "caff" ++ [232%N]) (lit "Italian") None
             (location (lit "Venice, Italy") (lit "IT") (Num 1234 (-2)) (Num 4544 (-2)))
             "17th Century" "sea" "Venetian merchants brought coffee from Ottoman ports";
           step 3 (lit "caf" ++ [233%N]) (lit "French") None
             (location (lit "Paris, France") (lit "FR") (Num 235 (-2)) (Num 4886 (-2)))
             "17th Century" "land" "French coffeehouses became cultural centers";
           step 4 (lit "coffee") (lit "English") None
             (location (lit "London, England") (lit "GB") (Num (-12) (-2)) (Num 5151 (-2)))
             "17th Century" "sea" "First London coffeehouse opened 1652" ]);
        ("narrative" :=> str "The word 'coffee' embarks on a rich linguistic and geographic journey...");
        ("routeSummary" :=> str "MARITIME_TRADE");
        ("funFact" :=> str "The first European coffeehouse opened in Venice in 1629.") ].

Definition tea : value :=
  VObj [ ("word" :=> str "tea");
        ("currentMeaning" :=> str "An aromatic beverage prepared by pouring hot water over cured leaves of the Camellia sinensis plant");
        ("origin" :=> VObj [ ("word" :=> VStr ([33590%N] ++ lit " (ch" ++ [225%N] ++ lit ")"));
                         ("language" :=> str "Chinese (Mandarin)");
                         ("meaning" :=> str "The tea plant and beverage");
                         ("location" :=> location (lit "Fujian Province, China") (lit "CN") (Num 118 0) (Num 26 0));
                         ("century" :=> str "3rd Century BCE") ]);
        ("journey" :=> VArr [
           step 1 (lit "t" ++ [234%N]) (lit "Min Chinese (Hokkien)") (Some (lit "te"))
             (location (lit "Xiamen, China") (lit "CN") (Num 11808 (-2)) (Num 2448 (-2)))
             "16th Century" "land" "Maritime trade variant pronunciation";
           step 2 (lit "thee") (lit "Dutch") None
             (location (lit "Amsterdam, Netherlands") (lit "NL") (Num 49 (-1)) (Num 5237 (-2)))
             "17th Century" "sea" "Dutch East India Company brought tea from Fujian";
           step 3 (lit "tea") (lit "English") None
             (location (lit "London, England") (lit "GB") (Num (-12) (-2)) (Num 5151 (-2)))
             "17th Century" "sea" "Borrowed from Dutch traders" ]);
        ("narrative" :=> str "The word 'tea' follows the maritime Silk Road from China to Europe...");
        ("routeSummary" :=> str "MARITIME_SILK_ROAD");
        ("funFact" :=> str "'Tea'-like words indicate maritime trade, 'cha'-like words indicate overland Silk Road trade.") ].

(** The own properties of the [mockData] object literal. *)
Definition mockData : list (jsstring * value) :=
  [ (lit "coffee", coffee); (lit "tea", tea) ].

(** [fetchWordJourneyMock] *)
Definition fetchWordJourneyMock (word : jsstring) : prog value :=
  Sleep 1500
    (let normalizedWord := toLowerCase word in
     if truthy (object_get mockData normalizedWord) then
       Ret (object_get mockData normalizedWord)
     else
       Throw (Error (lit "Mock data not available for " ++ [c_quote] ++ word ++ [c_quote]
                     ++ lit ". Use a real AI provider or try: coffee, tea"))).

(** *** Dispatcher *)

Record AIProviderConfig : Type := Config {
  provider : jsstring;
  apiKey : option jsstring;
  baseUrl : option jsstring;
  model : option jsstring;
  timeout : option number;
  responseLanguage : option jsstring
}.

(** [s || fallback] for an optional string. *)
Definition string_or (s : option jsstring) (fallback : jsstring) : jsstring :=
  match s with
  | Some x => if truthy_string x then x else fallback
  | None => fallback
  end.

(** [n || fallback] for an optional number. *)
Definition number_or (n : option number) (fallback : number) : number :=
  match n with
  | Some x => if truthy (VNum x) then x else fallback
  | None => fallback
  end.

(** [!key] for an optional string: absent and empty are both falsy. *)
Definition missing (key : option jsstring) : bool :=
  match key with
  | Some k => negb (truthy_string k)
  | None => true
  end.

(** An optional string where the guard before it has excluded [undefined]. *)
Definition narrowed (key : option jsstring) : jsstring :=
  match key with
  | Some k => k
  | None => []
  end.

Definition is_case (provider : jsstring) (label : string) : bool :=
  str_eqb provider (lit label).

(** [fetchWordJourney] *)
Definition fetchWordJourney (word : jsstring) (config : AIProviderConfig) : prog value :=
  let p := provider config in
  if is_case p "gemini-api" then
    if missing (apiKey config) then Throw (Error (lit "API key required for Gemini API"))
    else fetchWordJourneyGeminiAPI word (narrowed (apiKey config)) (responseLanguage config)
  else if is_case p "openai-api" then
    if missing (apiKey config) then Throw (Error (lit "API key required for OpenAI API"))
    else fetchWordJourneyOpenAI word (narrowed (apiKey config)) (responseLanguage config)
  else if is_case p "anthropic-api" then
    if missing (apiKey config) then Throw (Error (lit "API key required for Anthropic API"))
    else fetchWordJourneyAnthropic word (narrowed (apiKey config)) (responseLanguage config)
  else if is_case p "ollama" then
    fetchWordJourneyOllama word
      (Some (string_or (baseUrl config) (lit "http://localhost:11434")))
      (Some (string_or (model config) (lit "llama3")))
      (responseLanguage config)
  else if (is_case p "gemini" || is_case p "claude" || is_case p "codex" || is_case p "qwen")%bool then
    fetchWordJourneyCLI word p (Some (number_or (timeout config) (num_of_Z 60)))
      (responseLanguage config)
  else
    fetchWordJourneyMock word.

End AiProvider.

(** * types: the interfaces of a word's journey *)

Module Types.

Record Coordinates : Type := {
  name : jsstring;
  countryCode : jsstring;
  coordinates : number * number        (* [longitude, latitude] *)
}.

Record Origin : Type := {
  origin_word : jsstring;
  origin_language : jsstring;
  meaning : jsstring;
  origin_location : Coordinates;
  origin_century : jsstring
}.

Inductive RouteType : Type := land | sea.

Record JourneyStep : Type := {
  order : number;
  step_word : jsstring;
  language : jsstring;
  pronunciation : option jsstring;
  location : Coordinates;
  century : jsstring;
  routeType : RouteType;
  notes : jsstring
}.

Record WordJourney : Type := {
  word : jsstring;
  currentMeaning : jsstring;
  origin : Origin;
  journey : list JourneyStep;
  narrative : jsstring;
  routeSummary : jsstring;
  funFact : option jsstring
}.

End Types.

(** * App.tsx: playback *)

Module App.

Import Types.

(** The component state the playback handlers read and write. *)
Record state : Type := State {
  journeyData : option WordJourney;
  activeWaypointIndex : Z;
  isPlaying : bool
}.

Definition setActiveWaypointIndex (f : Z -> Z) (st : state) : state :=
  State (journeyData st) (f (activeWaypointIndex st)) (isPlaying st).

Definition setIsPlaying (b : bool) (st : state) : state :=
  State (journeyData st) (activeWaypointIndex st) b.


Definition handleReset (st : state) : state :=
  setActiveWaypointIndex (fun _ => -1)%Z (setIsPlaying false st).

Definition handleNext (st : state) : state :=
  match journeyData st with
  | None => st
  | Some data =>
      setActiveWaypointIndex
        (fun prev => Z.min (prev + 1) (Z.of_nat (List.length (journey data)) - 1))%Z st
  end.

Definition handlePrev (st : state) : state :=
  setActiveWaypointIndex (fun prev => Z.max (prev - 1) (-1))%Z st.

Inductive action : Type := Next | Prev | Reset.

Definition handle (st : state) (a : action) : state :=
  match a with
  | Next => handleNext st
  | Prev => handlePrev st
  | Reset => handleReset st
  end.


(** [handleTogglePlay] *)
Definition handleTogglePlay (st : state) : state :=
  setIsPlaying (negb (isPlaying st)) st.

(** The [canGoNext] and [canGoPrev] props handed to the controls. *)
Definition canGoNext (st : state) (data : WordJourney) : bool :=
  (activeWaypointIndex st <? Z.of_nat (List.length (journey data)) - 1)%Z.

Definition canGoPrev (st : state) : bool :=
  (-1 <? activeWaypointIndex st)%Z.

(** One run of the auto-play effect: while playing on a loaded journey,
    below the last waypoint it sets the timer whose firing is
    [handleNext]; at the last waypoint it sets [isPlaying] to false
    itself, without a timer. *)
Definition autoplay (st : state) : state :=
  match journeyData st with
  | Some data =>
      if isPlaying st then
        if (activeWaypointIndex st <? Z.of_nat (List.length (journey data)) - 1)%Z
        then handleNext st
        else setIsPlaying false st
      else st
  | None => st
  end.

(** The rest of the component state [handleSearch] writes. *)
Record ui : Type := Ui {
  core : state;
  isLoading : bool;
  error : option jsstring;
  showPanel : bool
}.

Definition initial_ui : ui := Ui (State None (-1) false) false None false.

(** [handleSearch] up to its [await]. *)
Definition search_started (u : ui) : ui :=
  Ui (State (journeyData (core u)) (-1) false) true None false.

(** [handleSearch] after the [await] returned [data]. *)
Definition search_resolved (data : WordJourney) (u : ui) : ui :=
  Ui (State (Some data) (activeWaypointIndex (core u)) (isPlaying (core u)))
     false (error u) true.

(** [handleSearch] after the [await] threw; [message] is what the catch
    clause computed from the exception. *)
Definition search_rejected (message : jsstring) (u : ui) : ui :=
  Ui (core u) false (Some message) (showPanel u).

(** What can happen to the component. *)
Inductive event : Type :=
| Submitted                          (* the search form or a suggestion *)
| Resolved (data : WordJourney)
| Failed (message : jsstring)
| Pressed (a : action)               (* a button of the playback controls *)
| TogglePressed
| TimerFired.

(** The playback controls are rendered for a loaded journey while no
    search is running, with Next and Prev disabled at the two ends; the
    search input refuses a submission while a search is running; a
    search can only complete while it is running. *)
Definition enabled (u : ui) (ev : event) : bool :=
  match ev with
  | Submitted => negb (isLoading u)
  | Resolved _ | Failed _ => isLoading u
  | Pressed a =>
      match journeyData (core u) with
      | Some data =>
          (negb (isLoading u) &&
           match a with
           | Next => canGoNext (core u) data
           | Prev => canGoPrev (core u)
           | Reset => true
           end)%bool
      | None => false
      end
  | TogglePressed =>
      match journeyData (core u) with
      | Some _ => negb (isLoading u)
      | None => false
      end
  | TimerFired => true
  end.

Definition with_core (f : state -> state) (u : ui) : ui :=
  Ui (f (core u)) (isLoading u) (error u) (showPanel u).

Definition react (u : ui) (ev : event) : ui :=
  if enabled u ev then
    match ev with
    | Submitted => search_started u
    | Resolved data => search_resolved data u
    | Failed message => search_rejected message u
    | Pressed a => with_core (fun st => handle st a) u
    | TogglePressed => with_core handleTogglePlay u
    | TimerFired => with_core autoplay u
    end
  else u.

Definition session (events : list event) : ui := fold_left react events initial_ui.

End App.

(** * server/api.ts: the relay *)

Module Relay.

Definition CLI_AGENTS : list jsstring :=
  map lit [ "gemini"; "claude"; "codex"; "qwen" ]%string.

Inductive body : Type :=
| NoBody
| Text (s : jsstring)
| Json (v : value).          (* [JSON.stringify(v)] *)

Record http_response : Type := HttpResponse {
  status : Z;
  content_type : option jsstring;
  payload : body
}.

Definition json_response (status : Z) (v : value) : http_response :=
  HttpResponse status (Some (lit "application/json")) (Json v).

Section Availability.

(** [execSync(command, { stdio: 'ignore' })] on the host: it returns when
    the command exits with status 0 and throws otherwise. *)
Variable execSync : jsstring -> result jsstring.

(** [checkCliInstalled] *)
Definition checkCliInstalled (name : jsstring) : result bool :=
  try_catch
    (rbind (execSync (lit "which " ++ name)) (fun _ => Ok true))
    (fun _ => Ok false).

(** The handler of [GET /api/cli-agents/check]. *)
Definition check_route : result http_response :=
  rbind
    (map_result
       (fun name =>
          rbind (checkCliInstalled name) (fun installed =>
          Ok (VObj [ (lit "name", VStr name); (lit "installed", VBool installed) ])))
       CLI_AGENTS)
    (fun agents => Ok (json_response 200 (VObj [ (lit "agents", VArr agents) ]))).

End Availability.

(** What the spawned child emits, in order: chunks on its two streams,
    then [close] with the exit code ([null] when a signal ended it, as
    when the [timeout] option kills it), or [error] when it could not be
    spawned. *)
Inductive child_event : Type :=
| StdoutData (chunk : jsstring)
| StderrData (chunk : jsstring)
| Close (code : option Z)
| SpawnError (message : jsstring).

(** The variables the listeners of one request close over. A second
    response on the same request is refused by the runtime. *)
Record request_state : Type := RequestState {
  output : jsstring;
  errorOutput : jsstring;
  sent : option http_response;
  refused : bool
}.

Definition initial : request_state := RequestState [] [] None false.

Definition respond (r : http_response) (st : request_state) : request_state :=
  match sent st with
  | None => RequestState (output st) (errorOutput st) (Some r) (refused st)
  | Some _ => RequestState (output st) (errorOutput st) (sent st) true
  end.

(** [`${code}`] *)
Definition code_text (code : option Z) : jsstring :=
  match code with
  | Some n => string_of_Z n
  | None => lit "null"
  end.

Definition is_zero (code : option Z) : bool :=
  match code with
  | Some n => Z.eqb n 0
  | None => false
  end.

(** The [close] listener. *)
Definition on_close (code : option Z) (st : request_state) : request_state :=
  if (is_zero code || Nat.ltb 0 (List.length (output st)))%bool then
    respond
      (json_response 200
         (VObj [ (lit "output",
                  VStr (if truthy_string (output st) then output st else errorOutput st)) ]))
      st
  else
    respond
      (json_response 500
         (VObj [ (lit "error", VStr (lit "Process exited with code " ++ code_text code));
                 (lit "output", VStr (errorOutput st)) ]))
      st.

(** The listeners attached to the child. *)
Definition on_event (st : request_state) (ev : child_event) : request_state :=
  match ev with
  | StdoutData data =>
      RequestState (output st ++ data) (errorOutput st) (sent st) (refused st)
  | StderrData data =>
      RequestState (output st) (errorOutput st ++ data) (sent st) (refused st)
  | Close code => on_close code st
  | SpawnError message =>
      respond
        (json_response 500
           (VObj [ (lit "error", VStr message); (lit "output", VStr []) ]))
        st
  end.

(** The arguments of [spawn]. *)
Record spawn_args : Type := SpawnArgs {
  command : jsstring;
  args : list jsstring;
  spawn_timeout : Z           (* milliseconds *)
}.

(** The body of [POST /api/cli-agent] after [JSON.parse] and
    destructuring, for a body whose [model] and [prompt] are strings and
    whose [timeout], when present, is an integer. *)
Record cli_request : Type := CliRequest {
  model : jsstring;
  prompt : jsstring;
  timeout : option Z
}.

Section CliAgent.

Variable CLI_AGENTS_PATH : jsstring.
Variable path_join : jsstring -> jsstring -> jsstring.
(** The host: the events of the child a [spawn] starts. *)
Variable spawn : spawn_args -> list child_event.

(** The handler of [POST /api/cli-agent], from the decoded body to the
    state its listeners leave. The log lines are left out. *)
Definition cli_agent_route (req : cli_request) : request_state :=
  let timeout := match timeout req with Some t => t | None => 60%Z end in
  let cliCallerPath := path_join CLI_AGENTS_PATH (lit "cli_caller.py") in
  let pythonProcess :=
    spawn (SpawnArgs (lit "python3")
             [ cliCallerPath; lit "--model"; model req; lit "--prompt"; prompt req;
               lit "--timeout"; string_of_Z timeout ]
             ((timeout + 30) * 1000)%Z) in
  fold_left on_event pythonProcess initial.

End CliAgent.

End Relay.

(** * components/WorldMap.tsx and InfoPanel.tsx *)

Module WorldMap.

Import Types.

(** [getFlagEmoji] *)
Definition getFlagEmoji (countryCode : jsstring) : jsstring :=
  if negb (truthy_string countryCode) then []
  else
    let code := toUpperCase countryCode in
    if negb (Nat.eqb (List.length code) 2) then []
    else flat_map (fun char => fromCodePoint (char + 127397)%N) code.

(** The coordinates the map centres on: the origin at index -1, the
    indexed waypoint when there is one, and no move otherwise. *)
Definition targetCoords (journeyData : WordJourney) (activeWaypointIndex : Z)
  : option (number * number) :=
  if Z.eqb activeWaypointIndex (-1) then
    Some (coordinates (origin_location (origin journeyData)))
  else if Z.ltb activeWaypointIndex 0 then None
  else
    match nth_error (journey journeyData) (Z.to_nat activeWaypointIndex) with
    | Some step => Some (coordinates (location step))
    | None => None
    end.

(** The stages drawn as reached, [idx <= activeWaypointIndex], in the map
    layer and in the migration log of the info panel. *)
Fixpoint reached_from (idx : nat) (steps : list JourneyStep) (activeWaypointIndex : Z)
  : list JourneyStep :=
  match steps with
  | [] => []
  | step :: rest =>
      if (Z.of_nat idx <=? activeWaypointIndex)%Z
      then step :: reached_from (S idx) rest activeWaypointIndex
      else reached_from (S idx) rest activeWaypointIndex
  end.

Definition reached (journeyData : WordJourney) (activeWaypointIndex : Z) : list JourneyStep :=
  reached_from 0 (journey journeyData) activeWaypointIndex.

End WorldMap.

(** * components/SearchInput.tsx *)

Module SearchInput.

Import AiProvider.

Inductive Category : Type := cli | api | local.

(** An entry of the registry; an absent flag is false, flags are only
    tested for truth. *)
Record ProviderInfo : Type := Info {
  id : jsstring;
  name : jsstring;
  desc : jsstring;
  needsKey : bool;
  needsConfig : bool;
  category : Category
}.

Definition PROVIDERS : list ProviderInfo :=
  [ Info (lit "gemini") (lit "Gemini CLI") (lit "1M tokens") false false cli;
    Info (lit "claude") (lit "Claude CLI") (lit "200k tokens") false false cli;
    Info (lit "codex") (lit "Codex CLI") (lit "128k") false false cli;
    Info (lit "qwen") (lit "Qwen CLI") (lit "General") false false cli;
    Info (lit "gemini-api") (lit "Gemini API") (lit "Direct API") true false api;
    Info (lit "openai-api") (lit "OpenAI API") (lit "GPT-4o-mini") true false api;
    Info (lit "anthropic-api") (lit "Anthropic API") (lit "Claude Sonnet") true false api;
    Info (lit "ollama") (lit "Ollama") (lit "Local LLM") false true local ].

(** The component state a search reads: the selected provider, the stored
    keys (a record from provider identifier to key) and the Ollama
    settings. *)
Record settings : Type := Settings {
  selected : jsstring;
  apiKeys : list (jsstring * jsstring);
  ollama_baseUrl : jsstring;
  ollama_model : jsstring
}.

(** [PROVIDERS.find(p => p.id === provider)] *)
Definition find_provider (provider : jsstring) : option ProviderInfo :=
  find (fun p => str_eqb (id p) provider) PROVIDERS.

(** [apiKeys[provider]] for one of the identifiers that need a key. *)
Fixpoint key_of (keys : list (jsstring * jsstring)) (provider : jsstring) : option jsstring :=
  match keys with
  | [] => None
  | (k, v) :: rest => if str_eqb k provider then Some v else key_of rest provider
  end.

(** [handleSearch]: the config handed to [onSearch]. A provider that is
    not in the registry makes the read of [providerInfo.needsKey] throw.
    The write of the settings to local storage is left out. *)
Definition handleSearch (st : settings) (word : jsstring)
  : result (jsstring * AIProviderConfig) :=
  match find_provider (selected st) with
  | None => Thrown TypeError
  | Some providerInfo =>
      let is_ollama := str_eqb (selected st) (lit "ollama") in
      Ok (word,
          Config (selected st)
                 (if needsKey providerInfo then key_of (apiKeys st) (selected st) else None)
                 (if is_ollama then Some (ollama_baseUrl st) else None)
                 (if is_ollama then Some (ollama_model st) else None)
                 (Some (num_of_Z 90))
                 None)
  end.

(** [handleSubmit]: nothing happens for a blank input or while loading. *)
Definition handleSubmit (st : settings) (value : jsstring) (isLoading : bool)
  : option (result (jsstring * AIProviderConfig)) :=
  if (truthy_string (trim value) && negb isLoading)%bool
  then Some (handleSearch st (trim value))
  else None.

(** [needsSetup], which disables the TRACE button. *)
Definition needsSetup (st : settings) : result bool :=
  match find_provider (selected st) with
  | None => Thrown TypeError
  | Some selectedProvider =>
      Ok ((needsKey selectedProvider && missing (key_of (apiKeys st) (selected st)))
          || (str_eqb (selected st) (lit "ollama") && negb (truthy_string (ollama_baseUrl st))))%bool
  end.

End SearchInput.

(** * Properties *)

Unset Implicit Arguments.

Import Etymology AiProvider.

(** ** The object pattern *)

(** The text has a substring that starts with an opening brace and ends
    with a closing one. *)
Definition contains_object_span (text : jsstring) : Prop :=
  exists pre mid post,
    text = pre ++ c_lbrace :: mid ++ c_rbrace :: post.

(** The same, decided: the first opening brace has a closing one after it. *)
Fixpoint has_object_span (text : jsstring) : bool :=
  match text with
  | [] => false
  | c :: rest =>
      if N.eqb c c_lbrace then existsb (N.eqb c_rbrace) rest
      else has_object_span rest
  end.

Definition star_rbrace : regex := [RAnyStar; RChar c_rbrace].

(** A world in which every [fetch] resolves with the same response. *)
Definition answering (r : response) : world :=
  World (fun _ => Ok r) (fun _ _ => Thrown (Rejected [])).

(** A world in which nothing can be reached. *)
Definition offline : world :=
  World (fun _ => Thrown (Rejected (lit "Failed to fetch")))
        (fun _ _ => Thrown (Rejected (lit "Failed to fetch"))).

(** [result.journey.map(step => step.order)] *)
Definition orders (v : value) : result (list value) :=
  rbind (get v (lit "journey")) (fun journey =>
    match journey with
    | VArr steps => map_result (fun s => get s (lit "order")) steps
    | _ => Thrown TypeError
    end).

(** [v.k1.k2...] *)
Definition get_path (v : value) (keys : list string) : result value :=
  fold_left (fun r k => rbind r (fun x => get x (lit k))) keys (Ok v).

(** The numbers 1, 2, ..., n. *)
Definition one_to (n : nat) : list value :=
  map (fun k => VNum (num_of_Z (Z.of_nat k))) (seq 1 n).

(** The backends that need a credential, and all eight backends. *)
Definition keyed_providers : list jsstring :=
  map lit [ "gemini-api"; "openai-api"; "anthropic-api" ]%string.

Definition known_providers : list jsstring :=
  map lit [ "gemini"; "claude"; "codex"; "qwen";
            "gemini-api"; "openai-api"; "anthropic-api"; "ollama" ]%string.

(** What a run of data events has written to each stream. *)
Definition is_data (ev : Relay.child_event) : bool :=
  match ev with
  | Relay.StdoutData _ | Relay.StderrData _ => true
  | _ => false
  end.

Definition stdout_of (events : list Relay.child_event) : jsstring :=
  flat_map (fun ev => match ev with Relay.StdoutData d => d | _ => [] end) events.

Definition stderr_of (events : list Relay.child_event) : jsstring :=
  flat_map (fun ev => match ev with Relay.StderrData d => d | _ => [] end) events.

(** The config with another stored key. *)
Definition with_apiKey (config : AIProviderConfig) (key : option jsstring) : AIProviderConfig :=
  Config (provider config) key (baseUrl config) (model config) (timeout config)
         (responseLanguage config).

(** The four CLI agents as the dispatcher lists them. *)
Definition cli_providers : list jsstring :=
  map lit [ "gemini"; "claude"; "codex"; "qwen" ]%string.

(** What the adapter's [fetch] sees of a response the relay has sent:
    [ok] for a status from 200 to 299, the reason phrase the transport
    attaches, and the JSON payload read back by [response.json()]. *)
Definition as_fetch_response (reason : jsstring) (r : Relay.http_response) : response :=
  Response ((200 <=? Relay.status r) && (Relay.status r <=? 299))%Z
           reason
           (match Relay.payload r with
            | Relay.Json v => Ok v
            | _ => Thrown SyntaxError
            end).

(** ASCII letters and their position in the alphabet. *)
Definition is_letter (c : N) : bool :=
  ((N.leb 65 c && N.leb c 90) || (N.leb 97 c && N.leb c 122))%bool.

Definition letter_index (c : N) : N :=
  if N.leb 97 c then (c - 97)%N else (c - 65)%N.

(** The playback index lies between -1 and the last waypoint. *)
Definition in_range (st : App.state) (data : Types.WordJourney) : Prop :=
  (-1 <= App.activeWaypointIndex st <= Z.of_nat (List.length (Types.journey data)) - 1)%Z.

(** The tea record of the mock backend under its interface, for examples. *)
Definition London : Types.Coordinates :=
  Types.Build_Coordinates (lit "London, England") (lit "GB") (Num (-12) (-2), Num 5151 (-2)).

Definition typed_tea : Types.WordJourney :=
  Types.Build_WordJourney (lit "tea")
    (lit "An aromatic beverage prepared by pouring hot water over cured leaves of the Camellia sinensis plant")
    (Types.Build_Origin ([33590%N] ++ lit " (ch" ++ [225%N] ++ lit ")") (lit "Chinese (Mandarin)")
       (lit "The tea plant and beverage")
       (Types.Build_Coordinates (lit "Fujian Province, China") (lit "CN") (Num 118 0, Num 26 0))
       (lit "3rd Century BCE"))
    [ Types.Build_JourneyStep (Num 1 0) (lit "t" ++ [234%N]) (lit "Min Chinese (Hokkien)")
        (Some (lit "te"))
        (Types.Build_Coordinates (lit "Xiamen, China") (lit "CN") (Num 11808 (-2), Num 2448 (-2)))
        (lit "16th Century") Types.land (lit "Maritime trade variant pronunciation");
      Types.Build_JourneyStep (Num 2 0) (lit "thee") (lit "Dutch") None
        (Types.Build_Coordinates (lit "Amsterdam, Netherlands") (lit "NL") (Num 49 (-1), Num 5237 (-2)))
        (lit "17th Century") Types.sea (lit "Dutch East India Company brought tea from Fujian");
      Types.Build_JourneyStep (Num 3 0) (lit "tea") (lit "English") None London
        (lit "17th Century") Types.sea (lit "Borrowed from Dutch traders") ]
    (lit "The word 'tea' follows the maritime Silk Road from China to Europe...")
    (lit "MARITIME_SILK_ROAD")
    (Some (lit "'Tea'-like words indicate maritime trade, 'cha'-like words indicate overland Silk Road trade.")).

(** What holds of the component between two events: the index is in the
    range of the loaded journey (or at -1 when there is none), and a
    running search has the index at -1 and playback stopped. *)
Definition session_ok (u : App.ui) : Prop :=
  match App.journeyData (App.core u) with
  | Some data => in_range (App.core u) data
  | None => App.activeWaypointIndex (App.core u) = (-1)%Z
  end /\
  (App.isLoading u = true ->
   App.activeWaypointIndex (App.core u) = (-1)%Z /\ App.isPlaying (App.core u) = false).

Lemma match_here_object (s : jsstring) :
  match_here json_object_re s =
  match s with
  | x :: s' =>
      if N.eqb x c_lbrace then option_map (cons x) (match_here star_rbrace s') else None
  | [] => None
  end.
Proof. destruct s; reflexivity. Qed.

Lemma star_rbrace_cons (x : N) (s : jsstring) :
  match_here star_rbrace (x :: s) =
  match match_here star_rbrace s with
  | Some m => Some (x :: m)
  | None => if N.eqb x c_rbrace then Some [x] else None
  end.
Proof.
  change (match_here star_rbrace (x :: s))
    with (match match_here star_rbrace s with
          | Some m => Some (x :: m)
          | None => match_here [RChar c_rbrace] (x :: s)
          end).
  destruct (match_here star_rbrace s); [reflexivity|].
  simpl. destruct (N.eqb x c_rbrace); reflexivity.
Qed.

Lemma star_rbrace_none (s : jsstring) :
  ~ In c_rbrace s -> match_here star_rbrace s = None.
Proof.
  induction s as [|x s IH]; intros Hnot; [reflexivity|].
  rewrite star_rbrace_cons, IH by (intros H; apply Hnot; now right).
  destruct (N.eqb_spec x c_rbrace) as [->|]; [|reflexivity].
  exfalso. apply Hnot. now left.
Qed.

Lemma star_rbrace_last (mid post : jsstring) :
  ~ In c_rbrace post ->
  match_here star_rbrace (mid ++ c_rbrace :: post) = Some (mid ++ [c_rbrace]).
Proof.
  intros Hpost. induction mid as [|x mid IH].
  - simpl app. rewrite star_rbrace_cons, (star_rbrace_none _ Hpost). reflexivity.
  - simpl app. rewrite star_rbrace_cons, IH. reflexivity.
Qed.

Lemma star_rbrace_some (s m : jsstring) :
  match_here star_rbrace s = Some m -> In c_rbrace s.
Proof.
  intros Hm. destruct (in_dec N.eq_dec c_rbrace s) as [Hin|Hnot]; [exact Hin|].
  rewrite (star_rbrace_none _ Hnot) in Hm. discriminate.
Qed.

Lemma str_match_unfold (p : regex) (s : jsstring) :
  str_match p s =
  match match_here p s with
  | Some m => Some m
  | None => match s with [] => None | _ :: s' => str_match p s' end
  end.
Proof. destruct s; reflexivity. Qed.

(** Text without an opening brace in front of the subject is skipped. *)
Lemma str_match_skip (pre s : jsstring) :
  ~ In c_lbrace pre ->
  str_match json_object_re (pre ++ s) = str_match json_object_re s.
Proof.
  induction pre as [|x pre IH]; intros Hpre; [reflexivity|].
  simpl app. rewrite str_match_unfold, match_here_object.
  destruct (N.eqb_spec x c_lbrace) as [->|_].
  - exfalso. apply Hpre. now left.
  - apply IH. intros H. apply Hpre. now right.
Qed.

(** The match runs from the first opening brace to the last closing one. *)
Lemma str_match_span (pre mid post : jsstring) :
  ~ In c_lbrace pre -> ~ In c_rbrace post ->
  str_match json_object_re (pre ++ c_lbrace :: mid ++ c_rbrace :: post)
  = Some (c_lbrace :: mid ++ [c_rbrace]).
Proof.
  intros Hpre Hpost. rewrite (str_match_skip _ _ Hpre).
  rewrite str_match_unfold, match_here_object, N.eqb_refl.
  rewrite (star_rbrace_last _ _ Hpost). reflexivity.
Qed.

Lemma str_match_none (text : jsstring) :
  ~ contains_object_span text -> str_match json_object_re text = None.
Proof.
  induction text as [|x text IH]; intros Hno; [reflexivity|].
  rewrite str_match_unfold, match_here_object.
  destruct (N.eqb_spec x c_lbrace) as [->|_].
  - destruct (match_here star_rbrace text) as [m|] eqn:Hm.
    + exfalso. apply Hno.
      destruct (in_split _ _ (star_rbrace_some _ _ Hm)) as (mid & post & ->).
      now exists [], mid, post.
    + simpl. apply IH. intros (pre & mid & post & ->).
      apply Hno. now exists (c_lbrace :: pre), mid, post.
  - apply IH. intros (pre & mid & post & ->).
    apply Hno. now exists (x :: pre), mid, post.
Qed.

Lemma has_object_span_false (text : jsstring) :
  has_object_span text = false -> ~ contains_object_span text.
Proof.
  induction text as [|x text IH]; intros Hb (pre & mid & post & Heq).
  - destruct pre; discriminate.
  - simpl in Hb. destruct pre as [|y pre]; simpl in Heq; injection Heq as -> ->.
    + rewrite N.eqb_refl in Hb.
      assert (existsb (N.eqb c_rbrace) (mid ++ c_rbrace :: post) = true) as Hex.
      { apply existsb_exists. exists c_rbrace. split; [|apply N.eqb_refl].
        apply in_or_app. right. now left. }
      congruence.
    + destruct (N.eqb y c_lbrace).
      * assert (existsb (N.eqb c_rbrace) (pre ++ c_lbrace :: mid ++ c_rbrace :: post) = true) as Hex.
        { apply existsb_exists. exists c_rbrace. split; [|apply N.eqb_refl].
          apply in_or_app. right. right. apply in_or_app. right. now left. }
        congruence.
      * apply (IH Hb). now exists pre, mid, post.
Qed.

Lemma has_object_span_true (text : jsstring) :
  has_object_span text = true -> contains_object_span text.
Proof.
  induction text as [|x text IH]; intros Hb; [discriminate|].
  simpl in Hb. destruct (N.eqb_spec x c_lbrace) as [->|_].
  - apply existsb_exists in Hb as (c & Hin & Hc). apply N.eqb_eq in Hc. subst c.
    destruct (in_split _ _ Hin) as (mid & post & ->).
    now exists [], mid, post.
  - destruct (IH Hb) as (pre & mid & post & ->).
    now exists (x :: pre), mid, post.
Qed.

Lemma star_rbrace_in (s : jsstring) :
  In c_rbrace s -> exists m, match_here star_rbrace s = Some m.
Proof.
  induction s as [|x s IH]; intros Hin; [contradiction|].
  rewrite star_rbrace_cons.
  destruct (match_here star_rbrace s) as [m|] eqn:Hm; [eexists; reflexivity|].
  destruct Hin as [<- | Hin].
  - rewrite N.eqb_refl. eexists; reflexivity.
  - destruct (IH Hin) as (m & Hsome). discriminate.
Qed.

(** The pattern matches exactly the texts that contain a span. *)
Lemma str_match_some (text : jsstring) :
  contains_object_span text -> exists m, str_match json_object_re text = Some m.
Proof.
  intros (pre & mid & post & ->). induction pre as [|x pre IH].
  - simpl app. rewrite str_match_unfold, match_here_object, N.eqb_refl.
    destruct (star_rbrace_in (mid ++ c_rbrace :: post)) as (m & ->).
    + apply in_or_app. right. now left.
    + eexists; reflexivity.
  - simpl app. rewrite str_match_unfold.
    destruct (match_here json_object_re _); [eexists; reflexivity | exact IH].
Qed.

(** Membership refuted by computation. *)
Lemma not_In_existsb (c : N) (s : jsstring) :
  existsb (N.eqb c) s = false -> ~ In c s.
Proof.
  intros Hb Hin.
  assert (existsb (N.eqb c) s = true) as Ht
    by (apply existsb_exists; exists c; split; [exact Hin | apply N.eqb_refl]).
  congruence.
Qed.

(** ** JSON extraction *)

Ltac split_match H :=
  repeat match type of H with
         | context [match ?x with _ => _ end] => destruct x eqn:?; try discriminate H
         end.

Lemma parse_members_object (fuel : nat) :
  forall s acc v r,
    JSON.parse_members fuel s acc = Some (v, r) -> exists props, v = VObj props.
Proof.
  induction fuel as [|fuel IH]; intros s acc v r H; [discriminate|].
  simpl in H. split_match H;
    first [ injection H as <- _; eexists; reflexivity
          | eapply IH; eassumption ].
Qed.

Lemma parse_value_object (fuel : nat) (s : jsstring) (v : value) (r : jsstring) :
  JSON.parse_value fuel (c_lbrace :: s) = Some (v, r) -> exists props, v = VObj props.
Proof.
  destruct fuel as [|fuel]; intros H; [discriminate|].
  simpl in H. split_match H;
    first [ injection H as <- _; eexists; reflexivity
          | eapply parse_members_object; eassumption ].
Qed.

(** What parses from a text that opens with a brace is an object. *)
Lemma parse_object (s : jsstring) (v : value) :
  JSON.parse (c_lbrace :: s) = Ok v -> exists props, v = VObj props.
Proof.
  unfold JSON.parse. change (JSON.skip_ws (c_lbrace :: s)) with (c_lbrace :: s).
  intros H.
  destruct (JSON.parse_value (2 + List.length (c_lbrace :: s)) (c_lbrace :: s))
    as [[v' r]|] eqn:Hv; [|discriminate].
  destruct (JSON.skip_ws r); [|discriminate].
  injection H as <-. eapply parse_value_object; eassumption.
Qed.

Lemma span_assoc (pre mid post : jsstring) :
  pre ++ (c_lbrace :: mid ++ [c_rbrace]) ++ post
  = pre ++ c_lbrace :: mid ++ c_rbrace :: post.
Proof. simpl. now rewrite <- app_assoc. Qed.

Lemma extractJson_span (pre mid post : jsstring) :
  ~ In c_lbrace pre -> ~ In c_rbrace post ->
  extractJson (pre ++ (c_lbrace :: mid ++ [c_rbrace]) ++ post)
  = JSON.parse (c_lbrace :: mid ++ [c_rbrace]).
Proof.
  intros Hpre Hpost. rewrite span_assoc. unfold extractJson.
  now rewrite str_match_span.
Qed.

Lemma extract_span (message : string) (pre mid post : jsstring) :
  ~ In c_lbrace pre -> ~ In c_rbrace post ->
  extract message (VStr (pre ++ (c_lbrace :: mid ++ [c_rbrace]) ++ post))
  = JSON.parse (c_lbrace :: mid ++ [c_rbrace]).
Proof.
  intros Hpre Hpost. rewrite span_assoc. unfold extract, as_string, rbind.
  now rewrite str_match_span.
Qed.

(** C1, as amended. When the text in front of a well-formed JSON object
    has no opening brace and the text behind it has no closing brace,
    every extraction site (extractJson of the CLI tool and the step shared
    by the Anthropic, Ollama and CLI-agent adapters) returns exactly the
    value of that object. *)
Theorem extraction_recovers_object (pre mid post : jsstring) (v : value) :
  JSON.parse (c_lbrace :: mid ++ [c_rbrace]) = Ok v ->
  ~ In c_lbrace pre ->
  ~ In c_rbrace post ->
  (exists props, v = VObj props) /\
  extractJson (pre ++ (c_lbrace :: mid ++ [c_rbrace]) ++ post) = Ok v /\
  forall message,
    extract message (VStr (pre ++ (c_lbrace :: mid ++ [c_rbrace]) ++ post)) = Ok v.
Proof.
  intros Hparse Hpre Hpost. split; [|split].
  - exact (parse_object _ _ Hparse).
  - now rewrite extractJson_span.
  - intros message. now rewrite extract_span.
Qed.

Lemma extraction_recovers_object_witness :
  JSON.parse (c_lbrace :: litq "`order`: 1" ++ [c_rbrace])
    = Ok (VObj [ (lit "order", VNum (Num 1 0)) ]) /\
  ~ In c_lbrace (lit "Here is the journey: ") /\
  ~ In c_rbrace (lit " Hope this helps!") /\
  extractJson (lit "Here is the journey: "
               ++ (c_lbrace :: litq "`order`: 1" ++ [c_rbrace])
               ++ lit " Hope this helps!")
    = Ok (VObj [ (lit "order", VNum (Num 1 0)) ]).
Proof.
  assert (~ In c_lbrace (lit "Here is the journey: ")) as Hpre
    by (apply not_In_existsb; reflexivity).
  assert (~ In c_rbrace (lit " Hope this helps!")) as Hpost
    by (apply not_In_existsb; reflexivity).
  split; [reflexivity|]. split; [exact Hpre|]. split; [exact Hpost|].
  exact (proj1 (proj2 (extraction_recovers_object
                         (lit "Here is the journey: ") (litq "`order`: 1")
                         (lit " Hope this helps!") _ eq_refl Hpre Hpost))).
Defined.

(** C1 as stated fails: a well-formed object between prose that itself
    contains braces is not recovered; the match runs from the first
    opening brace of the prose to the last closing brace and does not
    parse. *)
Lemma extraction_misses_object_among_braces :
  JSON.parse (litq "{`order`: 1}") = Ok (VObj [ (lit "order", VNum (Num 1 0)) ]) /\
  str_match json_object_re (lit "Fields {in braces}: " ++ litq "{`order`: 1}" ++ lit " end")
    = Some (lit "{in braces}: " ++ litq "{`order`: 1}") /\
  extractJson (lit "Fields {in braces}: " ++ litq "{`order`: 1}" ++ lit " end")
    = Thrown SyntaxError /\
  extract "No valid JSON in response" (VStr (litq "{`order`: 1}" ++ lit " and {`order`: 2}"))
    = Thrown SyntaxError.
Proof. repeat split; reflexivity. Qed.

(** C5. A text with no substring that starts with an opening brace and
    ends with a closing one makes every extraction site fail with its
    own "No valid JSON ..." error. *)
Theorem extraction_fails_without_object (text : jsstring) :
  ~ contains_object_span text ->
  extractJson text = Thrown (Error (lit "No valid JSON found in response")) /\
  extract "No valid JSON in Anthropic response" (VStr text)
    = Thrown (Error (lit "No valid JSON in Anthropic response")) /\
  extract "No valid JSON in Ollama response" (VStr text)
    = Thrown (Error (lit "No valid JSON in Ollama response")) /\
  extract "No valid JSON in response" (VStr text)
    = Thrown (Error (lit "No valid JSON in response")).
Proof.
  intros Hno. unfold extractJson, extract, as_string, rbind.
  rewrite (str_match_none _ Hno). repeat split; reflexivity.
Qed.

Lemma extraction_fails_without_object_witness :
  ~ contains_object_span (lit "I could not trace } that word {") /\
  extractJson (lit "I could not trace } that word {")
    = Thrown (Error (lit "No valid JSON found in response")).
Proof.
  assert (~ contains_object_span (lit "I could not trace } that word {")) as Hno
    by (apply has_object_span_false; reflexivity).
  split; [exact Hno|].
  exact (proj1 (extraction_fails_without_object _ Hno)).
Defined.

(** ** The adapters reach the extraction step *)

(** On a successful response the CLI-agent adapter returns what the
    extraction step makes of the relay's [output] field. *)
Lemma fetchWordJourneyCLI_ok (word provider : jsstring) (timeout : option number)
    (language : option jsstring) (r : response) (data : value) :
  ok r = true -> json r = Ok data ->
  run (answering r) (fetchWordJourneyCLI word provider timeout language)
  = rbind (get data (lit "output")) (extract "No valid JSON in response").
Proof.
  intros Hok Hjson. unfold fetchWordJourneyCLI. cbn [run answering net].
  rewrite Hok, Hjson. cbn [negb rbind].
  destruct (get data (lit "output")) as [out|e]; cbn [rbind lift];
    [destruct (extract _ out)|]; reflexivity.
Qed.

Lemma fetchWordJourneyOllama_ok (word : jsstring) (baseUrl model : option jsstring)
    (language : option jsstring) (r : response) (data : value) :
  ok r = true -> json r = Ok data ->
  run (answering r) (fetchWordJourneyOllama word baseUrl model language)
  = rbind (get data (lit "response")) (extract "No valid JSON in Ollama response").
Proof.
  intros Hok Hjson. unfold fetchWordJourneyOllama. cbn [run answering net].
  rewrite Hok, Hjson. cbn [negb rbind].
  destruct (get data (lit "response")) as [out|e]; cbn [rbind lift];
    [destruct (extract _ out)|]; reflexivity.
Qed.

Lemma fetchWordJourneyAnthropic_ok (word apiKey : jsstring)
    (language : option jsstring) (r : response) (data : value) :
  ok r = true -> json r = Ok data ->
  run (answering r) (fetchWordJourneyAnthropic word apiKey language)
  = rbind (get data (lit "content")) (fun content =>
    rbind (get_index content 0) (fun block =>
    rbind (get block (lit "text")) (extract "No valid JSON in Anthropic response"))).
Proof.
  intros Hok Hjson. unfold fetchWordJourneyAnthropic. cbn [run answering net].
  rewrite Hok, Hjson. cbn [negb rbind].
  destruct (get data (lit "content")) as [content|e]; cbn [rbind lift]; [|reflexivity].
  destruct (get_index content 0) as [block|e]; cbn [rbind lift]; [|reflexivity].
  destruct (get block (lit "text")) as [text|e]; cbn [rbind lift]; [|reflexivity].
  destruct (extract _ text); reflexivity.
Qed.

(** The CLI-agent adapter on a relay answer whose output has no object. *)
Lemma fetchWordJourneyCLI_no_json (word provider text : jsstring) (timeout : option number)
    (language : option jsstring) :
  ~ contains_object_span text ->
  run (answering (Response true (lit "OK") (Ok (VObj [ (lit "output", VStr text) ]))))
      (fetchWordJourneyCLI word provider timeout language)
  = Thrown (Error (lit "No valid JSON in response")).
Proof.
  intros Hno.
  rewrite (fetchWordJourneyCLI_ok word provider timeout language
             (Response true (lit "OK") (Ok (VObj [ (lit "output", VStr text) ]))) _
             eq_refl eq_refl).
  change (get (VObj [ (lit "output", VStr text) ]) (lit "output")) with (Ok (VStr text)).
  unfold extract, as_string, rbind. now rewrite (str_match_none _ Hno).
Qed.

(** The same adapter on an answer that wraps one object in prose. *)
Lemma fetchWordJourneyCLI_wrapped (word provider pre mid post : jsstring)
    (timeout : option number) (language : option jsstring) (v : value) :
  JSON.parse (c_lbrace :: mid ++ [c_rbrace]) = Ok v ->
  ~ In c_lbrace pre -> ~ In c_rbrace post ->
  run (answering (Response true (lit "OK")
                    (Ok (VObj [ (lit "output",
                                 VStr (pre ++ (c_lbrace :: mid ++ [c_rbrace]) ++ post)) ]))))
      (fetchWordJourneyCLI word provider timeout language)
  = Ok v.
Proof.
  intros Hparse Hpre Hpost.
  rewrite (fetchWordJourneyCLI_ok word provider timeout language
             (Response true (lit "OK")
                (Ok (VObj [ (lit "output",
                             VStr (pre ++ (c_lbrace :: mid ++ [c_rbrace]) ++ post)) ]))) _
             eq_refl eq_refl).
  change (get (VObj [ (lit "output", VStr (pre ++ (c_lbrace :: mid ++ [c_rbrace]) ++ post)) ])
              (lit "output"))
    with (Ok (VStr (pre ++ (c_lbrace :: mid ++ [c_rbrace]) ++ post))).
  cbn [rbind]. now rewrite extract_span.
Qed.

(** ** Missing credentials *)

(** C3. For each of the three backends that need a credential, the
    dispatcher called with a config without an API key fails at once with
    the "API key required" error: the promise is rejected before any
    effect, so no network request is made and no SDK call is started, in
    whatever world. *)
Theorem dispatch_without_key (word : jsstring) (config : AIProviderConfig) :
  In (provider config) keyed_providers ->
  apiKey config = None ->
  exists backend : string,
    In backend [ "Gemini API"; "OpenAI API"; "Anthropic API" ]%string /\
    fetchWordJourney word config
      = Throw (Error (lit "API key required for " ++ lit backend)) /\
    forall w : world,
      calls w (fetchWordJourney word config) = [] /\
      run w (fetchWordJourney word config)
        = Thrown (Error (lit "API key required for " ++ lit backend)).
Proof.
  intros Hin Hkey. unfold fetchWordJourney. rewrite Hkey.
  destruct Hin as [<- | [<- | [<- | []]]].
  - exists "Gemini API"%string. repeat split; simpl; auto.
  - exists "OpenAI API"%string. repeat split; simpl; auto.
  - exists "Anthropic API"%string. repeat split; simpl; auto.
Qed.

Lemma dispatch_without_key_witness :
  In (provider (Config (lit "openai-api") None None None None None)) keyed_providers /\
  apiKey (Config (lit "openai-api") None None None None None) = None /\
  exists backend : string,
    In backend [ "Gemini API"; "OpenAI API"; "Anthropic API" ]%string /\
    fetchWordJourney (lit "coffee") (Config (lit "openai-api") None None None None None)
      = Throw (Error (lit "API key required for " ++ lit backend)) /\
    forall w : world,
      calls w (fetchWordJourney (lit "coffee") (Config (lit "openai-api") None None None None None)) = [] /\
      run w (fetchWordJourney (lit "coffee") (Config (lit "openai-api") None None None None None))
        = Thrown (Error (lit "API key required for " ++ lit backend)).
Proof.
  assert (In (lit "openai-api") keyed_providers) as Hin by (right; left; reflexivity).
  split; [exact Hin|]. split; [reflexivity|].
  exact (dispatch_without_key (lit "coffee")
           (Config (lit "openai-api") None None None None None) Hin eq_refl).
Defined.

(** The empty key the settings panel starts with counts as absent too. *)
Lemma dispatch_with_empty_key (word : jsstring) (config : AIProviderConfig) (w : world) :
  In (provider config) keyed_providers ->
  apiKey config = Some [] ->
  calls w (fetchWordJourney word config) = [] /\
  exists message, run w (fetchWordJourney word config) = Thrown (Error message).
Proof.
  intros Hin Hkey. unfold fetchWordJourney. rewrite Hkey.
  destruct Hin as [<- | [<- | [<- | []]]]; (split; [reflexivity | eexists; reflexivity]).
Qed.

(** With a key the call does go out. *)
Lemma dispatch_with_key_calls :
  calls offline (fetchWordJourney (lit "coffee")
                   (Config (lit "openai-api") (Some (lit "sk-1")) None None None None))
  <> [].
Proof. discriminate. Qed.

(** ** The relay's POST route *)

Import Relay.

Lemma fold_data_events (events : list child_event) (st : request_state) :
  forallb is_data events = true ->
  fold_left on_event events st
  = RequestState (output st ++ stdout_of events) (errorOutput st ++ stderr_of events)
                 (sent st) (refused st).
Proof.
  revert st. induction events as [|ev events IH]; intros st Hdata.
  - simpl. rewrite !app_nil_r. now destruct st.
  - simpl in Hdata. apply andb_prop in Hdata as [Hev Hrest].
    destruct ev; try discriminate; simpl fold_left; rewrite (IH _ Hrest); simpl;
      now rewrite <- ?app_assoc.
Qed.

Lemma route_after_close (path : jsstring) (join : jsstring -> jsstring -> jsstring)
    (spawn : spawn_args -> list child_event) (req : cli_request)
    (events : list child_event) (code : option Z) :
  (forall a, spawn a = events ++ [Close code]) ->
  forallb is_data events = true ->
  cli_agent_route path join spawn req
  = on_close code (RequestState (stdout_of events) (stderr_of events) None false).
Proof.
  intros Hspawn Hdata. unfold cli_agent_route. rewrite Hspawn, fold_left_app.
  rewrite (fold_data_events _ _ Hdata). reflexivity.
Qed.

(** C2, as amended. When the subprocess ends with a non-zero exit status
    the relay answers 500 with "Process exited with code N" and the
    captured standard error only if the subprocess wrote nothing to its
    standard output; when it wrote something, the relay answers 200 with
    that output. *)
Theorem relay_nonzero_exit (path : jsstring) (join : jsstring -> jsstring -> jsstring)
    (spawn : spawn_args -> list child_event) (req : cli_request)
    (events : list child_event) (n : Z) :
  (forall a, spawn a = events ++ [Close (Some n)]) ->
  forallb is_data events = true ->
  n <> 0%Z ->
  sent (cli_agent_route path join spawn req)
  = Some (match stdout_of events with
          | [] =>
              json_response 500
                (VObj [ (lit "error", VStr (lit "Process exited with code " ++ string_of_Z n));
                        (lit "output", VStr (stderr_of events)) ])
          | _ :: _ =>
              json_response 200 (VObj [ (lit "output", VStr (stdout_of events)) ])
          end).
Proof.
  intros Hspawn Hdata Hn.
  rewrite (route_after_close _ _ _ _ _ _ Hspawn Hdata).
  unfold on_close. cbn [is_zero output errorOutput].
  apply Z.eqb_neq in Hn. rewrite Hn.
  destruct (stdout_of events); reflexivity.
Qed.

Lemma relay_nonzero_exit_witness :
  sent (cli_agent_route (lit "/opt/agents") (fun a b => a ++ lit "/" ++ b)
          (fun _ => [StderrData (lit "model not found")] ++ [Close (Some 2%Z)])
          (CliRequest (lit "gemini") (lit "Trace tea") None))
  = Some (json_response 500
            (VObj [ (lit "error", VStr (lit "Process exited with code 2"));
                    (lit "output", VStr (lit "model not found")) ])).
Proof.
  refine (relay_nonzero_exit (lit "/opt/agents") (fun a b => a ++ lit "/" ++ b)
            (fun _ => [StderrData (lit "model not found")] ++ [Close (Some 2%Z)])
            (CliRequest (lit "gemini") (lit "Trace tea") None)
            [StderrData (lit "model not found")] 2%Z (fun _ => eq_refl) eq_refl _).
  discriminate.
Defined.

(** C2 as stated fails: a subprocess that has written to its standard
    output and then exits with status 1 gets a 200 response. *)
Lemma relay_success_on_nonzero_exit :
  sent (cli_agent_route (lit "/opt/agents") (fun a b => a ++ lit "/" ++ b)
          (fun _ => [ StdoutData (lit "Traceback (most recent call last):");
                      StderrData (lit "quota exceeded");
                      Close (Some 1%Z) ])
          (CliRequest (lit "gemini") (lit "Trace tea") (Some 60%Z)))
  = Some (json_response 200
            (VObj [ (lit "output", VStr (lit "Traceback (most recent call last):")) ])).
Proof. reflexivity. Qed.

(** ** Timeouts *)

(** C4, as amended. When the subprocess of the CLI tool is aborted on
    timeout, callCliAgent fails with the error of the abort if nothing had
    been captured from the subprocess's standard output; what had been
    captured is returned in place of the failure. *)
Theorem callCliAgent_on_timeout (path : jsstring) (join : jsstring -> jsstring -> jsstring)
    (execSync : jsstring -> exec_options -> result jsstring)
    (captured : option jsstring) (word model : jsstring) (timeout : Z) :
  (forall cmd opts,
     execSync cmd opts = Thrown (ChildProcessError (ExecFailure TimedOut captured))) ->
  callCliAgent path join execSync word model timeout
  = match captured with
    | Some (c :: out) => Ok (c :: out)
    | Some [] | None => Thrown (ChildProcessError (ExecFailure TimedOut captured))
    end.
Proof.
  intros Hexec. unfold callCliAgent. rewrite Hexec.
  destruct captured as [[|c out]|]; reflexivity.
Qed.

Lemma callCliAgent_on_timeout_witness :
  callCliAgent (lit "/opt/agents") (fun a b => a ++ lit "/" ++ b)
    (fun _ _ => Thrown (ChildProcessError (ExecFailure TimedOut (Some []))))
    (lit "tea") (lit "gemini") 60
  = Thrown (ChildProcessError (ExecFailure TimedOut (Some []))).
Proof.
  exact (callCliAgent_on_timeout (lit "/opt/agents") (fun a b => a ++ lit "/" ++ b)
           (fun _ _ => Thrown (ChildProcessError (ExecFailure TimedOut (Some []))))
           (Some []) (lit "tea") (lit "gemini") 60 (fun _ _ => eq_refl)).
Defined.

(** C4 as stated fails: a subprocess that has printed its answer and is
    then aborted on timeout does not make the CLI tool fail; the partial
    output is returned and parsed. The relay does the same with the output
    of a child killed by its timeout. *)
Lemma timeout_salvages_partial_output :
  callCliAgent (lit "/opt/agents") (fun a b => a ++ lit "/" ++ b)
    (fun _ _ => Thrown (ChildProcessError
                          (ExecFailure TimedOut (Some (litq "{`word`: `tea`} and")))))
    (lit "tea") (lit "gemini") 60
  = Ok (litq "{`word`: `tea`} and") /\
  main_data (lit "/opt/agents") (fun a b => a ++ lit "/" ++ b)
    (fun _ _ => Thrown (ChildProcessError
                          (ExecFailure TimedOut (Some (litq "{`word`: `tea`} and")))))
    (lit "tea") (lit "gemini") 60
  = Ok (VObj [ (lit "word", VStr (lit "tea")) ]) /\
  sent (cli_agent_route (lit "/opt/agents") (fun a b => a ++ lit "/" ++ b)
          (fun _ => [ StdoutData (litq "{`word`: `tea`} and"); Close None ])
          (CliRequest (lit "gemini") (lit "Trace tea") (Some 60%Z)))
  = Some (json_response 200 (VObj [ (lit "output", VStr (litq "{`word`: `tea`} and")) ])).
Proof. repeat split; reflexivity. Qed.

(** ** The availability check *)

(** C8. Whatever the host does with the presence check, checkCliInstalled
    returns a boolean, false when the check throws, and the route answers
    200 with one {name, installed} entry for each of the four agents. *)
Theorem availability_check_total (execSync : jsstring -> result jsstring) :
  (forall name,
     checkCliInstalled execSync name
     = Ok (match execSync (lit "which " ++ name) with
           | Ok _ => true
           | Thrown _ => false
           end)) /\
  check_route execSync
  = Ok (json_response 200
          (VObj [ (lit "agents",
                   VArr (map (fun name =>
                                VObj [ (lit "name", VStr name);
                                       (lit "installed",
                                        VBool (match execSync (lit "which " ++ name) with
                                               | Ok _ => true
                                               | Thrown _ => false
                                               end)) ])
                             [ lit "gemini"; lit "claude"; lit "codex"; lit "qwen" ])) ])).
Proof.
  assert (forall name,
            checkCliInstalled execSync name
            = Ok (match execSync (lit "which " ++ name) with
                  | Ok _ => true
                  | Thrown _ => false
                  end)) as Hcheck.
  { intros name. unfold checkCliInstalled.
    destruct (execSync (lit "which " ++ name)); reflexivity. }
  split; [exact Hcheck|].
  unfold check_route, CLI_AGENTS. cbn [map map_result].
  rewrite !Hcheck. reflexivity.
Qed.

(** On a host with none of the tools every entry reports false. *)
Lemma availability_none_installed :
  check_route (fun _ => Thrown (ChildProcessError (ExecFailure (NonZeroExit 1) None)))
  = Ok (json_response 200
          (VObj [ (lit "agents",
                   VArr [ VObj [ (lit "name", VStr (lit "gemini")); (lit "installed", VBool false) ];
                          VObj [ (lit "name", VStr (lit "claude")); (lit "installed", VBool false) ];
                          VObj [ (lit "name", VStr (lit "codex")); (lit "installed", VBool false) ];
                          VObj [ (lit "name", VStr (lit "qwen")); (lit "installed", VBool false) ] ]) ])).
Proof. reflexivity. Qed.

(** ** Waypoint order *)




(** ** The mock backend *)

(** C7. The mock backend answers "coffee" with the coffee record: origin
    Mokha, Yemen (YE), 15th Century; four waypoints numbered 1 to 4, the
    last one London, England (GB), 17th Century, by sea. *)
Theorem mock_coffee :
  (forall w : world, run w (fetchWordJourneyMock (lit "coffee")) = Ok coffee) /\
  get_path coffee [ "origin"; "location"; "name" ]%string = Ok (str "Mokha, Yemen") /\
  get_path coffee [ "origin"; "location"; "countryCode" ]%string = Ok (str "YE") /\
  get_path coffee [ "origin"; "century" ]%string = Ok (str "15th Century") /\
  orders coffee = Ok (one_to 4) /\
  exists s1 s2 s3 s4 : value,
    get coffee (lit "journey") = Ok (VArr [ s1; s2; s3; s4 ]) /\
    get_path s4 [ "order" ]%string = Ok (VNum (Num 4 0)) /\
    get_path s4 [ "location"; "name" ]%string = Ok (str "London, England") /\
    get_path s4 [ "location"; "countryCode" ]%string = Ok (str "GB") /\
    get_path s4 [ "century" ]%string = Ok (str "17th Century") /\
    get_path s4 [ "routeType" ]%string = Ok (str "sea").
Proof.
  split; [intros w; reflexivity|].
  do 4 (split; [reflexivity|]).
  do 4 eexists. split; [reflexivity|].
  repeat split; reflexivity.
Qed.

(** ** Playback *)

Import App.








(** handleNext stops at the last waypoint and handlePrev at -1. *)
Lemma handleNext_clamps (data : Types.WordJourney) (playing : bool) :
  activeWaypointIndex
    (handleNext (State (Some data) (Z.of_nat (List.length (Types.journey data)) - 1) playing))
  = (Z.of_nat (List.length (Types.journey data)) - 1)%Z.
Proof. cbn. lia. Qed.

Lemma handlePrev_clamps (data : option Types.WordJourney) (playing : bool) :
  activeWaypointIndex (handlePrev (State data (-1) playing)) = (-1)%Z.
Proof. reflexivity. Qed.

(** ** The default case of the dispatcher *)

Lemma str_eqb_eq (a b : jsstring) : str_eqb a b = true <-> a = b.
Proof.
  revert b. induction a as [|x a IH]; intros [|y b]; simpl; split; intros H;
    try reflexivity; try discriminate.
  - apply andb_prop in H as [Hx Ha]. apply N.eqb_eq in Hx. apply IH in Ha. congruence.
  - injection H as -> ->. rewrite N.eqb_refl. now apply IH.
Qed.

Lemma str_eqb_neq (a b : jsstring) : a <> b -> str_eqb a b = false.
Proof.
  intros Hne. destruct (str_eqb a b) eqn:Heq; [|reflexivity].
  apply str_eqb_eq in Heq. contradiction.
Qed.

(** A provider identifier outside the eight backends reaches the mock. *)
Lemma dispatch_default (word : jsstring) (config : AIProviderConfig) :
  ~ In (provider config) known_providers ->
  fetchWordJourney word config = fetchWordJourneyMock word.
Proof.
  intros Hnot. unfold fetchWordJourney, is_case.
  rewrite !str_eqb_neq; [reflexivity | ..];
    intros Heq; apply Hnot; rewrite Heq; cbn; tauto.
Qed.

(** The mock lowers the word before the lookup. *)
Lemma mock_ignores_case (w : world) :
  run w (fetchWordJourneyMock (lit "Coffee")) = Ok coffee /\
  run w (fetchWordJourneyMock (lit "COFFEE")) = Ok coffee /\
  run w (fetchWordJourneyMock (lit "TeA")) = Ok tea.
Proof. repeat split; reflexivity. Qed.

(** A word that lowers to neither of the two keys nor to a name
    inherited from [Object.prototype] is refused. *)
Lemma mock_refuses_unknown (word : jsstring) :
  toLowerCase word <> lit "coffee" ->
  toLowerCase word <> lit "tea" ->
  ~ In (toLowerCase word) Object_prototype_names ->
  fetchWordJourneyMock word
  = Sleep 1500
      (Throw (Error (lit "Mock data not available for " ++ [c_quote] ++ word ++ [c_quote]
                     ++ lit ". Use a real AI provider or try: coffee, tea"))).
Proof.
  intros Hc Ht Hp. unfold fetchWordJourneyMock. cbv zeta.
  assert (object_get mockData (toLowerCase word) = VUndefined) as ->; [|reflexivity].
  unfold object_get, mockData, own_property, inherited_property.
  rewrite (str_eqb_neq (lit "coffee") _ (fun H => Hc (eq_sym H))).
  rewrite (str_eqb_neq (lit "tea") _ (fun H => Ht (eq_sym H))).
  destruct (existsb (str_eqb (toLowerCase word)) Object_prototype_names) eqn:Hex; [|reflexivity].
  exfalso. apply existsb_exists in Hex as (k & Hin & Hk).
  apply str_eqb_eq in Hk. subst k. exact (Hp Hin).
Qed.

(** C10 at the word "constructor". Through the default case of the
    dispatcher the mock backend finds the word among the properties its
    data object inherits, and returns the built-in without an error. *)
Theorem mock_answers_inherited_name (w : world) :
  ~ In (lit "mock") known_providers /\
  toLowerCase (lit "constructor") <> lit "coffee" /\
  toLowerCase (lit "constructor") <> lit "tea" /\
  run w (fetchWordJourney (lit "constructor") (Config (lit "mock") None None None None None))
  = Ok (VNative (lit "constructor")) /\
  run w (fetchWordJourneyMock (lit "__proto__")) = Ok (VNative (lit "__proto__")).
Proof.
  split; [|repeat split; try reflexivity; discriminate].
  cbn. intros H. repeat (destruct H as [H | H]; [discriminate|]). exact H.
Qed.

(** * Further properties *)

(** ** Extraction returns objects only *)

Lemma str_match_opens (text m : jsstring) :
  str_match json_object_re text = Some m -> exists rest, m = c_lbrace :: rest.
Proof.
  induction text as [|x text IH]; rewrite str_match_unfold, match_here_object.
  - discriminate.
  - destruct (N.eqb_spec x c_lbrace) as [->|_]; [|exact IH].
    destruct (match_here star_rbrace text) as [m'|]; simpl.
    + intros H. injection H as <-. eexists; reflexivity.
    + exact IH.
Qed.

Lemma parse_outcomes (text : jsstring) :
  (exists v, JSON.parse text = Ok v) \/ JSON.parse text = Thrown SyntaxError.
Proof.
  unfold JSON.parse.
  destruct (JSON.parse_value _ _) as [[v rest]|]; [|now right].
  destruct (JSON.skip_ws rest); [left; eexists; reflexivity | now right].
Qed.

(** X1. Whatever extractJson returns is an object: arrays, strings,
    numbers and the other JSON values never come out of it, since the
    matched text opens with a brace. *)
Theorem extractJson_returns_objects (text : jsstring) (v : value) :
  extractJson text = Ok v -> exists props, v = VObj props.
Proof.
  unfold extractJson. destruct (str_match json_object_re text) as [m|] eqn:Hm; [|discriminate].
  destruct (str_match_opens _ _ Hm) as (rest & ->). apply parse_object.
Qed.

Lemma extractJson_returns_objects_witness :
  extractJson (litq "[1, {`order`: 1}]") = Ok (VObj [ (lit "order", VNum (Num 1 0)) ]) /\
  exists props, VObj [ (lit "order", VNum (Num 1 0)) ] = VObj props.
Proof.
  split; [reflexivity|].
  exact (extractJson_returns_objects (litq "[1, {`order`: 1}]") _ eq_refl).
Defined.

(** X2. extractJson reports "No valid JSON found in response" exactly for
    the texts without a brace-to-brace span; on every other text it either
    succeeds or fails with the SyntaxError of JSON.parse. *)
Theorem extractJson_outcomes (text : jsstring) :
  (extractJson text = Thrown (Error (lit "No valid JSON found in response"))
   <-> ~ contains_object_span text) /\
  (contains_object_span text ->
   (exists v, extractJson text = Ok v) \/ extractJson text = Thrown SyntaxError).
Proof.
  split; [split|].
  - intros Hfail Hspan. destruct (str_match_some _ Hspan) as (m & Hm).
    unfold extractJson in Hfail. rewrite Hm in Hfail.
    destruct (parse_outcomes m) as [(v & Hv) | Hv]; rewrite Hv in Hfail; discriminate.
  - intros Hno. unfold extractJson. now rewrite (str_match_none _ Hno).
  - intros Hspan. destruct (str_match_some _ Hspan) as (m & Hm).
    unfold extractJson. rewrite Hm. apply parse_outcomes.
Qed.

Lemma extractJson_outcomes_witness :
  contains_object_span (lit "{not json}") /\
  ((exists v, extractJson (lit "{not json}") = Ok v)
   \/ extractJson (lit "{not json}") = Thrown SyntaxError).
Proof.
  assert (contains_object_span (lit "{not json}")) as Hspan
    by (apply has_object_span_true; reflexivity).
  split; [exact Hspan|].
  exact (proj2 (extractJson_outcomes (lit "{not json}")) Hspan).
Defined.

(** X3. The CLI tool salvages a failed run: when the agent script fails,
    for whatever reason, after printing one well-formed object wrapped in
    brace-free prose, main still obtains exactly that object. *)
Theorem main_data_after_failure (path : jsstring) (join : jsstring -> jsstring -> jsstring)
    (execSync : jsstring -> exec_options -> result jsstring) (why : exec_reason)
    (pre mid post word model : jsstring) (timeout : Z) (v : value) :
  (forall cmd opts,
     execSync cmd opts
     = Thrown (ChildProcessError
                 (ExecFailure why (Some (pre ++ (c_lbrace :: mid ++ [c_rbrace]) ++ post))))) ->
  JSON.parse (c_lbrace :: mid ++ [c_rbrace]) = Ok v ->
  ~ In c_lbrace pre ->
  ~ In c_rbrace post ->
  main_data path join execSync word model timeout = Ok v.
Proof.
  intros Hexec Hparse Hpre Hpost. unfold main_data, callCliAgent. rewrite Hexec.
  cbn [try_catch stdout].
  replace (truthy_string (pre ++ (c_lbrace :: mid ++ [c_rbrace]) ++ post)) with true
    by (destruct pre; reflexivity).
  cbn [rbind]. now rewrite extractJson_span.
Qed.

Lemma main_data_after_failure_witness :
  main_data (lit "/opt/agents") (fun a b => a ++ lit "/" ++ b)
    (fun _ _ => Thrown (ChildProcessError
                          (ExecFailure (NonZeroExit 1)
                             (Some (lit "warning: " ++ (c_lbrace :: litq "`word`: `tea`" ++ [c_rbrace])
                                    ++ lit " (exit 1)")))))
    (lit "tea") (lit "gemini") 60
  = Ok (VObj [ (lit "word", VStr (lit "tea")) ]).
Proof.
  refine (main_data_after_failure (lit "/opt/agents") (fun a b => a ++ lit "/" ++ b)
            (fun _ _ => Thrown (ChildProcessError
                          (ExecFailure (NonZeroExit 1)
                             (Some (lit "warning: " ++ (c_lbrace :: litq "`word`: `tea`" ++ [c_rbrace])
                                    ++ lit " (exit 1)")))))
            (NonZeroExit 1) (lit "warning: ") (litq "`word`: `tea`") (lit " (exit 1)")
            (lit "tea") (lit "gemini") 60 _ (fun _ _ => eq_refl) eq_refl _ _);
    apply not_In_existsb; reflexivity.
Defined.

(** ** One outbound call *)

Lemma calls_lift (w : world) (r : result value) : calls w (lift r) = [].
Proof. destruct r; reflexivity. Qed.

Lemma calls_fetch_then_lift (w : world) (req : request) (k : response -> prog value) :
  (forall r, calls w (k r) = []) ->
  calls w (Fetch req k) = [NetworkCall req].
Proof.
  intros Hk. cbn [calls]. destruct (net w req) as [r|e]; [now rewrite Hk | reflexivity].
Qed.

Lemma calls_OpenAI (w : world) (word key : jsstring) (language : option jsstring) :
  List.length (calls w (fetchWordJourneyOpenAI word key language)) = 1%nat.
Proof.
  unfold fetchWordJourneyOpenAI. rewrite calls_fetch_then_lift; [reflexivity|].
  intros r. destruct (negb (ok r)); apply calls_lift.
Qed.

Lemma calls_Anthropic (w : world) (word key : jsstring) (language : option jsstring) :
  List.length (calls w (fetchWordJourneyAnthropic word key language)) = 1%nat.
Proof.
  unfold fetchWordJourneyAnthropic. rewrite calls_fetch_then_lift; [reflexivity|].
  intros r. destruct (negb (ok r)); apply calls_lift.
Qed.

Lemma calls_Ollama (w : world) (word : jsstring) (base mdl language : option jsstring) :
  List.length (calls w (fetchWordJourneyOllama word base mdl language)) = 1%nat.
Proof.
  unfold fetchWordJourneyOllama. cbv zeta. rewrite calls_fetch_then_lift; [reflexivity|].
  intros r. destruct (negb (ok r)); [reflexivity | apply calls_lift].
Qed.

Lemma calls_CLI (w : world) (word p : jsstring) (t : option number) (language : option jsstring) :
  List.length (calls w (fetchWordJourneyCLI word p t language)) = 1%nat.
Proof.
  unfold fetchWordJourneyCLI. cbv zeta. rewrite calls_fetch_then_lift; [reflexivity|].
  intros r. destruct (negb (ok r)); [reflexivity | apply calls_lift].
Qed.

Lemma calls_Gemini (w : world) (word key : jsstring) (language : option jsstring) :
  List.length (calls w (fetchWordJourneyGeminiAPI word key language)) = 1%nat.
Proof.
  unfold fetchWordJourneyGeminiAPI. cbn [calls].
  destruct (gemini_sdk w _ _); [now rewrite calls_lift | reflexivity].
Qed.

Lemma calls_Mock (w : world) (word : jsstring) :
  calls w (fetchWordJourneyMock word) = [].
Proof.
  unfold fetchWordJourneyMock. cbn [calls]. cbv zeta.
  destruct (truthy _); reflexivity.
Qed.

(** X4. Whatever the world answers, the dispatcher makes at most one
    outbound call: there is no retry and no fallback to another backend.
    It makes exactly one for the CLI agents and Ollama, and none for an
    identifier outside the eight backends. *)
Theorem dispatch_at_most_one_call (w : world) (word : jsstring) (config : AIProviderConfig) :
  (List.length (calls w (fetchWordJourney word config)) <= 1)%nat /\
  (In (provider config) (lit "ollama" :: cli_providers) ->
   List.length (calls w (fetchWordJourney word config)) = 1%nat) /\
  (~ In (provider config) known_providers ->
   calls w (fetchWordJourney word config) = []).
Proof.
  split; [|split].
  - unfold fetchWordJourney.
    repeat match goal with
           | |- context [if ?b then _ else _] => destruct b
           end;
      rewrite ?calls_Gemini, ?calls_OpenAI, ?calls_Anthropic, ?calls_Ollama, ?calls_CLI,
        ?calls_Mock; cbn; lia.
  - intros Hin. unfold fetchWordJourney, is_case.
    destruct Hin as [<- | [<- | [<- | [<- | [<- | []]]]]]; cbn [str_eqb lit];
      first [apply calls_Ollama | apply calls_CLI].
  - intros Hnot. rewrite (dispatch_default _ _ Hnot). apply calls_Mock.
Qed.

Lemma dispatch_at_most_one_call_witness :
  In (provider (Config (lit "qwen") None None None None None)) (lit "ollama" :: cli_providers) /\
  List.length (calls offline (fetchWordJourney (lit "tea")
                                (Config (lit "qwen") None None None None None))) = 1%nat.
Proof.
  assert (In (lit "qwen") (lit "ollama" :: cli_providers)) as Hin
    by (right; right; right; right; left; reflexivity).
  split; [exact Hin|].
  exact (proj1 (proj2 (dispatch_at_most_one_call offline (lit "tea")
                         (Config (lit "qwen") None None None None None))) Hin).
Defined.

(** X5. A backend that needs no credential never sees one: for the CLI
    agents, Ollama and the mock the program the dispatcher builds is the
    same whatever key the config carries, so the calls and the outcome
    are the same too. *)
Theorem key_unused_without_need (word : jsstring) (config : AIProviderConfig)
    (key : option jsstring) :
  ~ In (provider config) keyed_providers ->
  fetchWordJourney word (with_apiKey config key) = fetchWordJourney word config.
Proof.
  intros Hnot. unfold fetchWordJourney, with_apiKey, is_case.
  cbn [provider apiKey baseUrl model timeout responseLanguage].
  rewrite (str_eqb_neq (provider config) (lit "gemini-api"))
    by (intros Heq; apply Hnot; rewrite Heq; cbn; tauto).
  rewrite (str_eqb_neq (provider config) (lit "openai-api"))
    by (intros Heq; apply Hnot; rewrite Heq; cbn; tauto).
  rewrite (str_eqb_neq (provider config) (lit "anthropic-api"))
    by (intros Heq; apply Hnot; rewrite Heq; cbn; tauto).
  reflexivity.
Qed.

Lemma key_unused_without_need_witness :
  ~ In (provider (Config (lit "claude") None None None None None)) keyed_providers /\
  calls offline (fetchWordJourney (lit "tea")
                   (with_apiKey (Config (lit "claude") None None None None None)
                                (Some (lit "sk-secret"))))
  = calls offline (fetchWordJourney (lit "tea") (Config (lit "claude") None None None None None)).
Proof.
  assert (~ In (lit "claude") keyed_providers) as Hnot.
  { cbn. intros H. repeat (destruct H as [H | H]; [discriminate|]). exact H. }
  split; [exact Hnot|].
  exact (f_equal (calls offline)
           (key_unused_without_need (lit "tea") (Config (lit "claude") None None None None None)
              (Some (lit "sk-secret")) Hnot)).
Defined.

(** ** Upstream failures *)

(** X6. A response that is not ok never becomes a Result: through the
    dispatcher, the CLI agents fail with "CLI agent error: " and Ollama
    with "Ollama error: ", each followed by the status text of the
    response, whatever its body holds. *)
Theorem status_failure_is_reported (word : jsstring) (config : AIProviderConfig) (r : response) :
  ok r = false ->
  (In (provider config) cli_providers ->
   run (answering r) (fetchWordJourney word config)
   = Thrown (Error (lit "CLI agent error: " ++ statusText r))) /\
  (provider config = lit "ollama" ->
   run (answering r) (fetchWordJourney word config)
   = Thrown (Error (lit "Ollama error: " ++ statusText r))).
Proof.
  intros Hok. split.
  - intros Hin. unfold fetchWordJourney, is_case.
    destruct Hin as [<- | [<- | [<- | [<- | []]]]]; cbn [str_eqb lit];
      cbn; rewrite Hok; reflexivity.
  - intros Hp. unfold fetchWordJourney, is_case. rewrite Hp. cbn. rewrite Hok. reflexivity.
Qed.

Lemma status_failure_is_reported_witness :
  run (answering (Response false (lit "Internal Server Error")
                    (Ok (VObj [ (lit "output", VStr (litq "{`word`: `tea`}")) ]))))
      (fetchWordJourney (lit "tea") (Config (lit "codex") None None None None None))
  = Thrown (Error (lit "CLI agent error: Internal Server Error")).
Proof.
  refine (proj1 (status_failure_is_reported (lit "tea")
                   (Config (lit "codex") None None None None None)
                   (Response false (lit "Internal Server Error")
                      (Ok (VObj [ (lit "output", VStr (litq "{`word`: `tea`}")) ])))
                   eq_refl) _).
  right; right; left; reflexivity.
Defined.

(** X7. On a response that is not ok the OpenAI and Anthropic adapters
    throw the provider's own message when the error body carries a
    non-empty one, their fixed default message when the body has no error
    entry, and the failure of reading the body when it is not JSON. *)
Theorem provider_message_is_surfaced (word key : jsstring) (language : option jsstring)
    (r : response) :
  ok r = false ->
  (forall props eprops m c,
     json r = Ok (VObj props) ->
     own_property props (lit "error") = Some (VObj eprops) ->
     own_property eprops (lit "message") = Some (VStr (c :: m)) ->
     run (answering r) (fetchWordJourneyOpenAI word key language) = Thrown (Error (c :: m)) /\
     run (answering r) (fetchWordJourneyAnthropic word key language) = Thrown (Error (c :: m))) /\
  (forall props,
     json r = Ok (VObj props) ->
     own_property props (lit "error") = None ->
     run (answering r) (fetchWordJourneyOpenAI word key language)
       = Thrown (Error (lit "OpenAI API error")) /\
     run (answering r) (fetchWordJourneyAnthropic word key language)
       = Thrown (Error (lit "Anthropic API error"))) /\
  (forall e,
     json r = Thrown e ->
     run (answering r) (fetchWordJourneyOpenAI word key language) = Thrown e /\
     run (answering r) (fetchWordJourneyAnthropic word key language) = Thrown e).
Proof.
  intros Hok. split; [|split].
  - intros props eprops m c Hjson Herr Hmsg.
    split; [unfold fetchWordJourneyOpenAI | unfold fetchWordJourneyAnthropic];
      cbn [run answering net]; rewrite Hok, Hjson; cbn [negb rbind get];
      unfold object_get; rewrite Herr; cbn [rbind get_opt get];
      unfold object_get; rewrite Hmsg; reflexivity.
  - intros props Hjson Herr.
    split; [unfold fetchWordJourneyOpenAI | unfold fetchWordJourneyAnthropic];
      cbn [run answering net]; rewrite Hok, Hjson; cbn [negb rbind get];
      unfold object_get; rewrite Herr; reflexivity.
  - intros e Hjson.
    split; [unfold fetchWordJourneyOpenAI | unfold fetchWordJourneyAnthropic];
      cbn [run answering net]; rewrite Hok, Hjson; reflexivity.
Qed.

Lemma provider_message_is_surfaced_witness :
  run (answering (Response false (lit "Unauthorized")
                    (Ok (VObj [ (lit "error",
                                 VObj [ (lit "message", VStr (lit "Incorrect API key provided")) ]) ]))))
      (fetchWordJourneyOpenAI (lit "tea") (lit "sk-bad") None)
  = Thrown (Error (lit "Incorrect API key provided")).
Proof.
  exact (proj1 (proj1 (provider_message_is_surfaced (lit "tea") (lit "sk-bad") None
                         (Response false (lit "Unauthorized")
                            (Ok (VObj [ (lit "error",
                                         VObj [ (lit "message",
                                                 VStr (lit "Incorrect API key provided")) ]) ])))
                         eq_refl)
                      _ _ (lit "ncorrect API key provided") 73%N eq_refl eq_refl eq_refl)).
Defined.

(** ** The relay's close listener *)

(** X8. A subprocess that exits with status 0 always gets a 200 response;
    its output field is the captured standard output, or the captured
    standard error when nothing was written to standard output. *)
Theorem relay_zero_exit (path : jsstring) (join : jsstring -> jsstring -> jsstring)
    (spawn : spawn_args -> list child_event) (req : cli_request)
    (events : list child_event) :
  (forall a, spawn a = events ++ [Close (Some 0%Z)]) ->
  forallb is_data events = true ->
  sent (cli_agent_route path join spawn req)
  = Some (json_response 200
            (VObj [ (lit "output",
                     VStr (match stdout_of events with
                           | [] => stderr_of events
                           | _ :: _ => stdout_of events
                           end)) ])).
Proof.
  intros Hspawn Hdata.
  rewrite (route_after_close _ _ _ _ _ _ Hspawn Hdata).
  unfold on_close. cbn [is_zero output errorOutput Z.eqb orb].
  destruct (stdout_of events); reflexivity.
Qed.

Lemma relay_zero_exit_witness :
  sent (cli_agent_route (lit "/opt/agents") (fun a b => a ++ lit "/" ++ b)
          (fun _ => [StderrData (litq "{`word`: `tea`}")] ++ [Close (Some 0%Z)])
          (CliRequest (lit "qwen") (lit "Trace tea") None))
  = Some (json_response 200 (VObj [ (lit "output", VStr (litq "{`word`: `tea`}")) ])).
Proof.
  exact (relay_zero_exit (lit "/opt/agents") (fun a b => a ++ lit "/" ++ b)
           (fun _ => [StderrData (litq "{`word`: `tea`}")] ++ [Close (Some 0%Z)])
           (CliRequest (lit "qwen") (lit "Trace tea") None)
           [StderrData (litq "{`word`: `tea`}")] (fun _ => eq_refl) eq_refl).
Defined.

(** X9. A subprocess ended by a signal, as when the spawn timeout kills
    it, closes with a null code: the relay then answers 500 with "Process
    exited with code null" if nothing was captured from standard output,
    and 200 with the captured output otherwise. *)
Theorem relay_killed_child (path : jsstring) (join : jsstring -> jsstring -> jsstring)
    (spawn : spawn_args -> list child_event) (req : cli_request)
    (events : list child_event) :
  (forall a, spawn a = events ++ [Close None]) ->
  forallb is_data events = true ->
  sent (cli_agent_route path join spawn req)
  = Some (match stdout_of events with
          | [] =>
              json_response 500
                (VObj [ (lit "error", VStr (lit "Process exited with code null"));
                        (lit "output", VStr (stderr_of events)) ])
          | _ :: _ =>
              json_response 200 (VObj [ (lit "output", VStr (stdout_of events)) ])
          end).
Proof.
  intros Hspawn Hdata.
  rewrite (route_after_close _ _ _ _ _ _ Hspawn Hdata).
  unfold on_close. cbn [is_zero output errorOutput orb].
  destruct (stdout_of events); reflexivity.
Qed.

Lemma relay_killed_child_witness :
  sent (cli_agent_route (lit "/opt/agents") (fun a b => a ++ lit "/" ++ b)
          (fun _ => [] ++ [Close None])
          (CliRequest (lit "qwen") (lit "Trace tea") (Some 5%Z)))
  = Some (json_response 500
            (VObj [ (lit "error", VStr (lit "Process exited with code null"));
                    (lit "output", VStr []) ])).
Proof.
  exact (relay_killed_child (lit "/opt/agents") (fun a b => a ++ lit "/" ++ b)
           (fun _ => [] ++ [Close None])
           (CliRequest (lit "qwen") (lit "Trace tea") (Some 5%Z))
           [] (fun _ => eq_refl) eq_refl).
Defined.

(** ** The relay's answer in the browser *)

Lemma adapter_on_relay_200 (v : value) (reason word provider : jsstring)
    (timeout : option number) (language : option jsstring) :
  run (answering (as_fetch_response reason (json_response 200 v)))
      (fetchWordJourneyCLI word provider timeout language)
  = rbind (get v (lit "output")) (extract "No valid JSON in response").
Proof.
  exact (fetchWordJourneyCLI_ok word provider timeout language
           (as_fetch_response reason (json_response 200 v)) v eq_refl eq_refl).
Qed.

Lemma adapter_on_relay_500 (v : value) (reason word provider : jsstring)
    (timeout : option number) (language : option jsstring) :
  run (answering (as_fetch_response reason (json_response 500 v)))
      (fetchWordJourneyCLI word provider timeout language)
  = Thrown (Error (lit "CLI agent error: " ++ reason)).
Proof. reflexivity. Qed.

(** X10. The CLI-agent adapter applied to what the relay answers after
    the child closed: captured standard output is what gets searched for
    an object, whatever the exit code; with none captured, standard error
    is searched after a zero exit, and any other close makes the adapter
    throw "CLI agent error: " followed by the status text. *)
Theorem relay_answer_in_adapter (path : jsstring) (join : jsstring -> jsstring -> jsstring)
    (spawn : spawn_args -> list child_event) (req : cli_request)
    (events : list child_event) (code : option Z) (reason word provider : jsstring)
    (timeout : option number) (language : option jsstring) :
  (forall a, spawn a = events ++ [Close code]) ->
  forallb is_data events = true ->
  exists r,
    sent (cli_agent_route path join spawn req) = Some r /\
    run (answering (as_fetch_response reason r))
        (fetchWordJourneyCLI word provider timeout language)
    = match stdout_of events with
      | _ :: _ => extract "No valid JSON in response" (VStr (stdout_of events))
      | [] =>
          if is_zero code then extract "No valid JSON in response" (VStr (stderr_of events))
          else Thrown (Error (lit "CLI agent error: " ++ reason))
      end.
Proof.
  intros Hspawn Hdata.
  rewrite (route_after_close _ _ _ _ _ _ Hspawn Hdata).
  unfold on_close. cbn [output errorOutput].
  destruct (stdout_of events) as [|c out] eqn:Hout; destruct (is_zero code);
    cbn [orb Nat.ltb Nat.leb List.length respond sent truthy_string];
    eexists; (split; [reflexivity|]);
    first [ rewrite adapter_on_relay_200; reflexivity
          | rewrite adapter_on_relay_500; reflexivity ].
Qed.

Lemma relay_answer_in_adapter_witness :
  exists r,
    sent (cli_agent_route (lit "/opt/agents") (fun a b => a ++ lit "/" ++ b)
            (fun _ => [StdoutData (litq "{`word`: `tea`}"); StderrData (lit "rate limited")]
                      ++ [Close (Some 1%Z)])
            (CliRequest (lit "gemini") (lit "Trace tea") None)) = Some r /\
    run (answering (as_fetch_response (lit "OK") r))
        (fetchWordJourneyCLI (lit "tea") (lit "gemini") None None)
    = Ok (VObj [ (lit "word", VStr (lit "tea")) ]).
Proof.
  exact (relay_answer_in_adapter (lit "/opt/agents") (fun a b => a ++ lit "/" ++ b)
           (fun _ => [StdoutData (litq "{`word`: `tea`}"); StderrData (lit "rate limited")]
                     ++ [Close (Some 1%Z)])
           (CliRequest (lit "gemini") (lit "Trace tea") None)
           [StdoutData (litq "{`word`: `tea`}"); StderrData (lit "rate limited")]
           (Some 1%Z) (lit "OK") (lit "tea") (lit "gemini") None None
           (fun _ => eq_refl) eq_refl).
Defined.

(** ** The component across searches and playback *)

Lemma react_keeps_session_ok (u : ui) (ev : event) :
  session_ok u -> session_ok (react u ev).
Proof.
  unfold session_ok, react, in_range.
  destruct u as [[stored index playing] loading err panel]. cbn.
  intros [Hrange Hload].
  destruct ev as [|data|message|a| |]; cbn.
  - destruct loading; cbn; [now split|]. split; [|now split].
    destruct stored; cbn; lia.
  - destruct loading; cbn; [|now split].
    destruct (Hload eq_refl) as [-> ->]. split; [lia | discriminate].
  - destruct loading; cbn; [|now split]. split; [exact Hrange | discriminate].
  - destruct stored as [data|]; [|now split].
    destruct loading; cbn; [now split|].
    destruct a; cbn;
      match goal with
      | |- context [if ?b then _ else _] => destruct b eqn:Hb
      | _ => idtac
      end; cbn; (split; [lia | discriminate]).
  - destruct stored as [data|]; [|now split].
    destruct loading; cbn; [now split|]. split; [exact Hrange | discriminate].
  - unfold autoplay. cbn. destruct stored as [data|]; [|now split].
    destruct playing; [|now split].
    destruct loading; [destruct (Hload eq_refl); discriminate|].
    destruct (Z.ltb_spec index (Z.of_nat (List.length (Types.journey data)) - 1)); cbn;
      (split; [lia | discriminate]).
Qed.

Lemma session_invariant (events : list event) : session_ok (session events).
Proof.
  unfold session.
  assert (forall u, session_ok u -> session_ok (fold_left react events u)) as Hfold.
  { induction events as [|ev events IH]; intros u Hu; [exact Hu|].
    cbn. apply IH, react_keeps_session_ok, Hu. }
  apply Hfold. split; [reflexivity | discriminate].
Qed.



Lemma autoplay_step (data : Types.WordJourney) (index : Z) :
  (index < Z.of_nat (List.length (Types.journey data)) - 1)%Z ->
  autoplay (State (Some data) index true) = State (Some data) (index + 1) true.
Proof.
  intros Hlt. unfold autoplay. cbn.
  destruct (Z.ltb_spec index (Z.of_nat (List.length (Types.journey data)) - 1)); [|lia].
  unfold handleNext, setActiveWaypointIndex. cbn. f_equal. lia.
Qed.

Lemma autoplay_stop (data : Types.WordJourney) (index : Z) :
  (Z.of_nat (List.length (Types.journey data)) - 1 <= index)%Z ->
  autoplay (State (Some data) index true) = State (Some data) index false.
Proof.
  intros Hge. unfold autoplay. cbn.
  destruct (Z.ltb_spec index (Z.of_nat (List.length (Types.journey data)) - 1)); [lia|].
  reflexivity.
Qed.

Lemma autoplay_runs (data : Types.WordJourney) (k : nat) :
  forall index : Z,
    (index + Z.of_nat k <= Z.of_nat (List.length (Types.journey data)) - 1)%Z ->
    Nat.iter k autoplay (State (Some data) index true)
    = State (Some data) (index + Z.of_nat k) true.
Proof.
  induction k as [|k IH]; intros index Hle.
  - cbn [Nat.iter nat_rect]. f_equal. lia.
  - rewrite Nat.iter_succ_r, autoplay_step by lia.
    rewrite IH by lia. f_equal. lia.
Qed.

(** X12. While playing on a loaded journey with the index in range, every
    run of the auto-play effect below the last waypoint moves the index
    up by exactly one and keeps playing, so k runs from index i give
    index i + k for every k up to the distance to the last waypoint; the
    run at the last waypoint sets isPlaying to false without moving, and
    the stopped state is left as it is by further runs. *)
Theorem autoplay_reaches_end (data : Types.WordJourney) (st : state) :
  journeyData st = Some data ->
  in_range st data ->
  isPlaying st = true ->
  (forall k : nat,
     (Z.of_nat k <= Z.of_nat (List.length (Types.journey data)) - 1
                    - activeWaypointIndex st)%Z ->
     Nat.iter k autoplay st
     = State (Some data) (activeWaypointIndex st + Z.of_nat k) true) /\
  autoplay (State (Some data) (Z.of_nat (List.length (Types.journey data)) - 1) true)
  = State (Some data) (Z.of_nat (List.length (Types.journey data)) - 1) false /\
  Nat.iter (S (Z.to_nat (Z.of_nat (List.length (Types.journey data)) - 1
                         - activeWaypointIndex st)))
           autoplay st
  = State (Some data) (Z.of_nat (List.length (Types.journey data)) - 1) false /\
  autoplay (State (Some data) (Z.of_nat (List.length (Types.journey data)) - 1) false)
  = State (Some data) (Z.of_nat (List.length (Types.journey data)) - 1) false.
Proof.
  destruct st as [stored index playing]. unfold in_range. cbn.
  intros -> Hrange ->. split; [|split; [|split]].
  - intros k Hk. apply autoplay_runs. lia.
  - apply autoplay_stop. lia.
  - cbn [Nat.iter nat_rect].
    change (nat_rect (fun _ => state) (State (Some data) index true) (fun _ => autoplay)
              (Z.to_nat (Z.of_nat (List.length (Types.journey data)) - 1 - index)))
      with (Nat.iter (Z.to_nat (Z.of_nat (List.length (Types.journey data)) - 1 - index))
              autoplay (State (Some data) index true)).
    rewrite autoplay_runs by lia.
    replace (index + Z.of_nat (Z.to_nat (Z.of_nat (List.length (Types.journey data)) - 1 - index)))%Z
      with (Z.of_nat (List.length (Types.journey data)) - 1)%Z by lia.
    apply autoplay_stop. lia.
  - reflexivity.
Qed.

Lemma autoplay_reaches_end_witness :
  Nat.iter 1 autoplay (State (Some typed_tea) (-1) true) = State (Some typed_tea) 0 true /\
  Nat.iter 2 autoplay (State (Some typed_tea) (-1) true) = State (Some typed_tea) 1 true /\
  Nat.iter 3 autoplay (State (Some typed_tea) (-1) true) = State (Some typed_tea) 2 true /\
  Nat.iter 4 autoplay (State (Some typed_tea) (-1) true) = State (Some typed_tea) 2 false.
Proof.
  assert (in_range (State (Some typed_tea) (-1) true) typed_tea) as Hrange
    by (unfold in_range; cbn; lia).
  pose proof (autoplay_reaches_end typed_tea (State (Some typed_tea) (-1) true)
                eq_refl Hrange eq_refl) as (Hruns & _ & Hend & _).
  split; [exact (Hruns 1%nat ltac:(cbn; lia))|].
  split; [exact (Hruns 2%nat ltac:(cbn; lia))|].
  split; [exact (Hruns 3%nat ltac:(cbn; lia))|].
  exact Hend.
Defined.

(** X13. On a loaded journey with the index in range, the Next button is
    enabled exactly when handleNext would move the index, and the Prev
    button exactly when handlePrev would; where a button is enabled the
    opposite handler undoes the step. *)
Theorem buttons_match_handlers (data : Types.WordJourney) (st : state) :
  journeyData st = Some data ->
  in_range st data ->
  (canGoNext st data = true
   <-> activeWaypointIndex (handleNext st) <> activeWaypointIndex st) /\
  (canGoPrev st = true
   <-> activeWaypointIndex (handlePrev st) <> activeWaypointIndex st) /\
  (canGoNext st data = true -> handlePrev (handleNext st) = st) /\
  (canGoPrev st = true -> handleNext (handlePrev st) = st).
Proof.
  destruct st as [stored index playing]. unfold in_range, canGoNext, canGoPrev. cbn.
  intros -> Hrange. repeat split.
  - intros Hb. apply Z.ltb_lt in Hb. cbn. lia.
  - cbn. intros Hne. apply Z.ltb_lt. lia.
  - intros Hb. apply Z.ltb_lt in Hb. lia.
  - intros Hne. apply Z.ltb_lt. lia.
  - intros Hb. apply Z.ltb_lt in Hb. unfold handlePrev, handleNext, setActiveWaypointIndex.
    cbn. f_equal. lia.
  - intros Hb. apply Z.ltb_lt in Hb. unfold handlePrev, handleNext, setActiveWaypointIndex.
    cbn. f_equal. lia.
Qed.

Lemma buttons_match_handlers_witness :
  canGoNext (State (Some typed_tea) 2 false) typed_tea = false /\
  handleNext (State (Some typed_tea) 1 true) = State (Some typed_tea) 2 true /\
  handlePrev (handleNext (State (Some typed_tea) 1 true)) = State (Some typed_tea) 1 true.
Proof.
  split; [reflexivity|]. split; [reflexivity|].
  refine (proj1 (proj2 (proj2 (buttons_match_handlers typed_tea
                                 (State (Some typed_tea) 1 true) eq_refl _))) eq_refl).
  unfold in_range. cbn. lia.
Defined.

(** ** What the map and the panel show *)

Import WorldMap.

(** X14. At every moment of a session with a journey loaded the map has
    its target: at index -1 the coordinates of the origin, and at any
    other index the coordinates of the waypoint journey[index], which
    exists; the branch that leaves the map where it is is never taken. *)
Theorem map_target_defined (events : list event) (data : Types.WordJourney) :
  journeyData (core (session events)) = Some data ->
  (activeWaypointIndex (core (session events)) = (-1)%Z /\
   targetCoords data (activeWaypointIndex (core (session events)))
   = Some (Types.coordinates (Types.origin_location (Types.origin data)))) \/
  ((0 <= activeWaypointIndex (core (session events)))%Z /\
   exists step,
     nth_error (Types.journey data) (Z.to_nat (activeWaypointIndex (core (session events))))
     = Some step /\
     targetCoords data (activeWaypointIndex (core (session events)))
     = Some (Types.coordinates (Types.location step))).
Proof.
  intros Hdata. destruct (session_invariant events) as [Hrange _].
  rewrite Hdata in Hrange. unfold in_range in Hrange. unfold targetCoords.
  destruct (Z.eqb_spec (activeWaypointIndex (core (session events))) (-1)) as [Heq|Hne];
    [left; split; [exact Heq | reflexivity]|].
  right. split; [lia|].
  destruct (Z.ltb_spec (activeWaypointIndex (core (session events))) 0) as [|Hpos]; [lia|].
  destruct (nth_error (Types.journey data)
              (Z.to_nat (activeWaypointIndex (core (session events))))) as [step|] eqn:Hnth.
  - exists step. split; reflexivity.
  - apply nth_error_None in Hnth. lia.
Qed.

Lemma map_target_defined_witness :
  journeyData (core (session [ Submitted; Resolved typed_tea; Pressed Next;
                               Pressed Next; Pressed Next; Pressed Next ])) = Some typed_tea /\
  targetCoords typed_tea
    (activeWaypointIndex (core (session [ Submitted; Resolved typed_tea; Pressed Next;
                                          Pressed Next; Pressed Next; Pressed Next ])))
  = Some (Types.coordinates London).
Proof.
  split; [reflexivity|].
  destruct (map_target_defined [ Submitted; Resolved typed_tea; Pressed Next;
                                 Pressed Next; Pressed Next; Pressed Next ]
              typed_tea eq_refl) as [[Horigin _] | [_ (step & Hstep & Htarget)]].
  - discriminate Horigin.
  - rewrite Htarget. injection Hstep as <-. reflexivity.
Defined.

Lemma reached_from_none (idx : nat) (steps : list Types.JourneyStep) (index : Z) :
  (index < Z.of_nat idx)%Z -> reached_from idx steps index = [].
Proof.
  revert idx. induction steps as [|step rest IH]; intros idx Hlt; [reflexivity|].
  cbn. destruct (Z.leb_spec (Z.of_nat idx) index); [lia|]. apply IH. lia.
Qed.

Lemma reached_from_prefix (idx : nat) (steps : list Types.JourneyStep) (index : Z) :
  reached_from idx steps index = firstn (Z.to_nat (index + 1 - Z.of_nat idx)) steps.
Proof.
  revert idx. induction steps as [|step rest IH]; intros idx.
  - now rewrite firstn_nil.
  - cbn [reached_from]. destruct (Z.leb_spec (Z.of_nat idx) index).
    + replace (Z.to_nat (index + 1 - Z.of_nat idx))
        with (S (Z.to_nat (index + 1 - Z.of_nat (S idx)))) by lia.
      cbn [firstn]. now rewrite IH.
    + replace (Z.to_nat (index + 1 - Z.of_nat idx)) with 0%nat by lia.
      cbn [firstn]. apply reached_from_none. lia.
Qed.

(** X15. The stages drawn as reached are the first index+1 waypoints of
    the journey, in order: none at the origin, all of them at the last
    index. *)
Theorem reached_is_prefix (data : Types.WordJourney) (index : Z) :
  reached data index = firstn (Z.to_nat (index + 1)) (Types.journey data).
Proof.
  unfold reached. rewrite reached_from_prefix. f_equal. lia.
Qed.

(** ** The cases of the dispatcher *)

Lemma dispatch_keyed (word : jsstring) (config : AIProviderConfig) :
  In (provider config) keyed_providers ->
  exists (message : jsstring) (adapter : jsstring -> prog value),
    fetchWordJourney word config
    = (if missing (apiKey config) then Throw (Error message)
       else adapter (narrowed (apiKey config))) /\
    forall w k, List.length (calls w (adapter k)) = 1%nat.
Proof.
  intros Hin. unfold fetchWordJourney, is_case.
  destruct Hin as [<- | [<- | [<- | []]]].
  - exists (lit "API key required for Gemini API"),
      (fun k => fetchWordJourneyGeminiAPI word k (responseLanguage config)).
    split; [reflexivity | intros w k; apply calls_Gemini].
  - exists (lit "API key required for OpenAI API"),
      (fun k => fetchWordJourneyOpenAI word k (responseLanguage config)).
    split; [reflexivity | intros w k; apply calls_OpenAI].
  - exists (lit "API key required for Anthropic API"),
      (fun k => fetchWordJourneyAnthropic word k (responseLanguage config)).
    split; [reflexivity | intros w k; apply calls_Anthropic].
Qed.

Lemma dispatch_cli (word : jsstring) (config : AIProviderConfig) :
  In (provider config) cli_providers ->
  fetchWordJourney word config
  = fetchWordJourneyCLI word (provider config)
      (Some (number_or (AiProvider.timeout config) (num_of_Z 60)))
      (responseLanguage config).
Proof.
  intros Hin. unfold fetchWordJourney, is_case.
  destruct Hin as [<- | [<- | [<- | [<- | []]]]]; reflexivity.
Qed.

(** ** From the search form to the dispatcher *)

Import SearchInput.

Lemma find_provider_known (p : jsstring) (info : ProviderInfo) :
  find_provider p = Some info -> In p known_providers /\ In info PROVIDERS.
Proof.
  unfold find_provider. intros Hfind. apply find_some in Hfind as [Hin Hid].
  apply str_eqb_eq in Hid. subst p. split; [|exact Hin].
  cbn in Hin. repeat (destruct Hin as [<- | Hin]; [cbn; tauto|]). contradiction.
Qed.

(** X16. A search built by the form never reaches the mock backend: the
    config handed to the dispatcher always names one of the eight
    backends, with a timeout of 90 and no response language, and a
    selection outside the registry makes handleSearch throw before any
    dispatch. *)
Theorem form_config_names_backend (st : settings) (word : jsstring) :
  (forall w' config,
     handleSearch st word = Ok (w', config) ->
     w' = word /\
     In (provider config) known_providers /\
     AiProvider.timeout config = Some (num_of_Z 90) /\
     responseLanguage config = None) /\
  (~ In (selected st) known_providers -> handleSearch st word = Thrown TypeError).
Proof.
  unfold handleSearch. destruct (find_provider (selected st)) as [info|] eqn:Hfind.
  - destruct (find_provider_known _ _ Hfind) as [Hknown _]. split.
    + intros w' config H. injection H as <- <-.
      cbn [provider AiProvider.timeout responseLanguage]. repeat split; assumption.
    + intros Hnot. contradiction.
  - split; [discriminate | reflexivity].
Qed.

Lemma form_config_names_backend_witness :
  ~ In (selected (Settings (lit "mock") [] [] [])) known_providers /\
  handleSearch (Settings (lit "mock") [] [] []) (lit "constructor") = Thrown TypeError.
Proof.
  assert (~ In (lit "mock") known_providers) as Hnot.
  { cbn. intros H. repeat (destruct H as [H | H]; [discriminate|]). exact H. }
  split; [exact Hnot|].
  exact (proj2 (form_config_names_backend (Settings (lit "mock") [] [] [])
                  (lit "constructor")) Hnot).
Defined.

(** X17. For a backend that needs a key, the form's needsSetup flag (which
    disables the TRACE button) is true exactly when the stored key is
    absent or empty, and that is exactly when the dispatcher, given the
    config the form builds, fails at once without an outbound call; with
    a key stored it makes one call. *)
Theorem setup_flag_matches_dispatch (st : settings) (word : jsstring) (w : world) :
  In (selected st) keyed_providers ->
  exists config,
    handleSearch st word = Ok (word, config) /\
    needsSetup st = Ok (missing (key_of (apiKeys st) (selected st))) /\
    List.length (calls w (fetchWordJourney word config))
    = (if missing (key_of (apiKeys st) (selected st)) then 0 else 1)%nat /\
    (missing (key_of (apiKeys st) (selected st)) = true ->
     exists message, run w (fetchWordJourney word config) = Thrown (Error message)).
Proof.
  intros Hin. destruct st as [sel keys base mdl].
  cbn [selected apiKeys ollama_baseUrl ollama_model] in *.
  exists (Config sel (key_of keys sel) None None (Some (num_of_Z 90)) None).
  assert (handleSearch (Settings sel keys base mdl) word
          = Ok (word, Config sel (key_of keys sel) None None (Some (num_of_Z 90)) None)
          /\ needsSetup (Settings sel keys base mdl) = Ok (missing (key_of keys sel)))
    as [Hsearch Hsetup].
  { unfold handleSearch, needsSetup. cbn [selected apiKeys ollama_baseUrl].
    destruct Hin as [<- | [<- | [<- | []]]]; (split; [reflexivity|]);
      cbn; now rewrite orb_false_r. }
  split; [exact Hsearch|]. split; [exact Hsetup|].
  destruct (dispatch_keyed word
              (Config sel (key_of keys sel) None None (Some (num_of_Z 90)) None) Hin)
    as (message & adapter & -> & Hcalls).
  cbn [apiKey]. destruct (missing (key_of keys sel)).
  - split; [reflexivity|]. intros _. exists message. reflexivity.
  - split; [apply Hcalls | discriminate].
Qed.

Lemma setup_flag_matches_dispatch_witness :
  In (selected (Settings (lit "anthropic-api") [ (lit "anthropic-api", []) ] [] []))
     keyed_providers /\
  exists config,
    handleSearch (Settings (lit "anthropic-api") [ (lit "anthropic-api", []) ] [] []) (lit "tea")
    = Ok (lit "tea", config) /\
    needsSetup (Settings (lit "anthropic-api") [ (lit "anthropic-api", []) ] [] []) = Ok true /\
    List.length (calls offline (fetchWordJourney (lit "tea") config)) = 0%nat /\
    (true = true ->
     exists message, run offline (fetchWordJourney (lit "tea") config) = Thrown (Error message)).
Proof.
  assert (In (lit "anthropic-api") keyed_providers) as Hin
    by (right; right; left; reflexivity).
  split; [exact Hin|].
  exact (setup_flag_matches_dispatch
           (Settings (lit "anthropic-api") [ (lit "anthropic-api", []) ] [] [])
           (lit "tea") offline Hin).
Defined.

Lemma drop_ws_blank (s : jsstring) :
  forallb is_str_ws s = true -> drop_ws s = [].
Proof.
  induction s as [|c s IH]; [reflexivity|]. cbn [forallb drop_ws].
  intros H. apply andb_prop in H as [-> Hs]. exact (IH Hs).
Qed.

(** X18. A submission that is blank (empty or white space only) or made
    while a search is running does nothing; any other submission searches
    for the trimmed text. *)
Theorem blank_submission_ignored (st : settings) (value : jsstring) (isLoading : bool) :
  (forallb is_str_ws value = true -> handleSubmit st value isLoading = None) /\
  handleSubmit st value true = None /\
  (trim value <> [] ->
   handleSubmit st value false = Some (handleSearch st (trim value))).
Proof.
  unfold handleSubmit. repeat split.
  - intros Hblank. unfold trim. rewrite (drop_ws_blank _ Hblank). reflexivity.
  - now rewrite andb_false_r.
  - intros Hne. destruct (trim value); [contradiction | reflexivity].
Qed.

Lemma blank_submission_ignored_witness :
  forallb is_str_ws [32%N; 9%N; 160%N] = true /\
  handleSubmit (Settings (lit "gemini") [] [] []) [32%N; 9%N; 160%N] false = None.
Proof.
  split; [reflexivity|].
  exact (proj1 (blank_submission_ignored (Settings (lit "gemini") [] [] [])
                  [32%N; 9%N; 160%N] false) eq_refl).
Defined.

(** X19. With a CLI agent selected, a search makes exactly one request,
    a POST to /api/cli-agent whose body names the selected agent as model
    and carries the timeout 90, whatever keys and Ollama settings are
    stored; none of them is part of the program that runs. *)
Theorem cli_search_request (st : settings) (word : jsstring) (w : world) :
  In (selected st) cli_providers ->
  exists config req,
    handleSearch st word = Ok (word, config) /\
    apiKey config = None /\
    calls w (fetchWordJourney word config) = [NetworkCall req] /\
    AiProvider.url req = lit "/api/cli-agent" /\
    AiProvider.method req = lit "POST" /\
    get (AiProvider.body req) (lit "model") = Ok (VStr (selected st)) /\
    get (AiProvider.body req) (lit "timeout") = Ok (VNum (num_of_Z 90)) /\
    fetchWordJourney word config
    = fetchWordJourneyCLI word (selected st) (Some (num_of_Z 90)) None.
Proof.
  intros Hin. destruct st as [sel keys base mdl].
  cbn [selected apiKeys ollama_baseUrl ollama_model] in *.
  exists (Config sel None None None (Some (num_of_Z 90)) None).
  assert (handleSearch (Settings sel keys base mdl) word
          = Ok (word, Config sel None None None (Some (num_of_Z 90)) None)) as Hsearch.
  { unfold handleSearch. cbn [selected apiKeys ollama_baseUrl].
    destruct Hin as [<- | [<- | [<- | [<- | []]]]]; reflexivity. }
  rewrite (dispatch_cli word (Config sel None None None (Some (num_of_Z 90)) None) Hin).
  cbn [provider AiProvider.timeout responseLanguage apiKey].
  replace (number_or (Some (num_of_Z 90)) (num_of_Z 60)) with (num_of_Z 90) by reflexivity.
  unfold fetchWordJourneyCLI at 1. cbv zeta.
  eexists. split; [exact Hsearch|]. split; [reflexivity|].
  split; [apply calls_fetch_then_lift;
          intros r; destruct (negb (ok r)); [reflexivity | apply calls_lift]|].
  repeat split; reflexivity.
Qed.

Lemma cli_search_request_witness :
  In (selected (Settings (lit "claude") [ (lit "openai-api", lit "sk-1") ] [] [])) cli_providers /\
  exists config req,
    handleSearch (Settings (lit "claude") [ (lit "openai-api", lit "sk-1") ] [] []) (lit "tea")
    = Ok (lit "tea", config) /\
    apiKey config = None /\
    calls offline (fetchWordJourney (lit "tea") config) = [NetworkCall req] /\
    AiProvider.url req = lit "/api/cli-agent" /\
    AiProvider.method req = lit "POST" /\
    get (AiProvider.body req) (lit "model") = Ok (VStr (lit "claude")) /\
    get (AiProvider.body req) (lit "timeout") = Ok (VNum (num_of_Z 90)) /\
    fetchWordJourney (lit "tea") config
    = fetchWordJourneyCLI (lit "tea") (lit "claude") (Some (num_of_Z 90)) None.
Proof.
  assert (In (lit "claude") cli_providers) as Hin by (right; left; reflexivity).
  split; [exact Hin|].
  exact (cli_search_request (Settings (lit "claude") [ (lit "openai-api", lit "sk-1") ] [] [])
           (lit "tea") offline Hin).
Defined.

(** ** The command line of the CLI tool *)

Lemma parse_options_plain (rest : list jsstring) (result : Args) :
  ~ In (lit "--model") rest -> ~ In (lit "--timeout") rest ->
  parse_options rest result = result.
Proof.
  induction rest as [|a rest IH]; intros Hm Ht; [reflexivity|].
  cbn [parse_options]. destruct rest as [|v rest']; [reflexivity|].
  rewrite (str_eqb_neq a (lit "--model")) by (intros ->; apply Hm; now left).
  rewrite (str_eqb_neq a (lit "--timeout")) by (intros ->; apply Ht; now left).
  cbn [andb]. apply IH; intros H; [apply Hm | apply Ht]; now right.
Qed.

(** X20. Without a --model or --timeout among the arguments, parseArgs
    keeps the defaults: the first argument is the word, the model is
    gemini and the timeout 60, whatever else the command line holds. *)
Theorem parseArgs_defaults (word : jsstring) (rest : list jsstring) :
  word <> lit "--help" -> word <> lit "-h" ->
  ~ In (lit "--model") rest -> ~ In (lit "--timeout") rest ->
  parseArgs (word :: rest) = Some (MkArgs word (lit "gemini") (Some 60%Z)).
Proof.
  intros Hhelp Hh Hm Ht. unfold parseArgs.
  rewrite (str_eqb_neq _ _ Hhelp), (str_eqb_neq _ _ Hh). cbn [orb].
  now rewrite parse_options_plain.
Qed.

Lemma parseArgs_defaults_witness :
  parseArgs [ lit "coffee"; lit "--verbose"; lit "--Model"; lit "claude" ]
  = Some (MkArgs (lit "coffee") (lit "gemini") (Some 60%Z)).
Proof.
  refine (parseArgs_defaults (lit "coffee") [ lit "--verbose"; lit "--Model"; lit "claude" ]
            _ _ _ _); try discriminate;
    cbn; intros H; repeat (destruct H as [H | H]; [discriminate|]); exact H.
Defined.

Lemma decimal_shift (ds : list N) (a : Z) :
  fold_left (fun acc d => acc * 10 + Z.of_N d)%Z ds a
  = (a * 10 ^ Z.of_nat (List.length ds) + Z_of_decimal ds)%Z.
Proof.
  unfold Z_of_decimal. revert a. induction ds as [|d ds IH]; intros a.
  - cbn. lia.
  - cbn [fold_left List.length]. rewrite IH, (IH (0 * 10 + Z.of_N d)%Z).
    rewrite Nat2Z.inj_succ, Z.pow_succ_r by lia. ring.
Qed.

Lemma digits_of_pos_spec (fuel : nat) :
  forall (n : N) (acc : jsstring),
    (n < 2 ^ N.of_nat fuel)%N ->
    forallb JSON.is_digit acc = true ->
    forallb JSON.is_digit (digits_of_pos fuel n acc) = true /\
    Z_of_decimal (map (fun c => c - 48)%N (digits_of_pos fuel n acc))
    = (Z.of_N n * 10 ^ Z.of_nat (List.length acc)
       + Z_of_decimal (map (fun c => c - 48)%N acc))%Z /\
    (List.length acc <= List.length (digits_of_pos fuel n acc))%nat.
Proof.
  induction fuel as [|fuel IH]; intros n acc Hn Hacc.
  - cbn in Hn. assert (n = 0%N) as -> by lia. cbn [digits_of_pos].
    split; [exact Hacc | split; lia].
  - cbn [digits_of_pos]. cbv zeta.
    assert (n mod 10 < 10)%N as Hmod by (apply N.mod_lt; discriminate).
    assert (forallb JSON.is_digit ((48 + n mod 10)%N :: acc) = true) as Hacc'.
    { cbn [forallb]. rewrite Hacc, andb_true_r. unfold JSON.is_digit.
      clear - Hmod. generalize dependent (n mod 10)%N. intros m Hm.
      apply andb_true_intro. split; apply N.leb_le; lia. }
    assert (Z_of_decimal (map (fun c => c - 48)%N ((48 + n mod 10)%N :: acc))
            = (Z.of_N (n mod 10) * 10 ^ Z.of_nat (List.length acc)
               + Z_of_decimal (map (fun c => c - 48)%N acc))%Z) as Hval.
    { cbn [map]. unfold Z_of_decimal at 1. cbn [fold_left].
      rewrite decimal_shift, length_map.
      replace (48 + n mod 10 - 48)%N with (n mod 10)%N
        by (rewrite N.add_comm; symmetry; apply N.add_sub).
      ring. }
    destruct (N.ltb_spec n 10) as [Hsmall | Hbig].
    + rewrite (N.mod_small n 10 Hsmall) in Hval, Hacc' |- *.
      split; [exact Hacc' | split; [exact Hval | cbn; lia]].
    + assert (n / 10 < 2 ^ N.of_nat fuel)%N as Hdiv.
      { apply N.Div0.div_lt_upper_bound.
        rewrite Nat2N.inj_succ, N.pow_succ_r' in Hn. lia. }
      destruct (IH (n / 10)%N _ Hdiv Hacc') as (Hall & Hv & Hlen).
      split; [exact Hall | split; [| cbn [List.length] in Hlen; lia]].
      rewrite Hv, Hval. cbn [List.length].
      rewrite Nat2Z.inj_succ, Z.pow_succ_r by lia.
      rewrite (N.div_mod n 10) at 3 by discriminate.
      rewrite N2Z.inj_add, N2Z.inj_mul. cbn [Z.of_N]. ring.
Qed.

Lemma digit_not_special (c : N) :
  JSON.is_digit c = true ->
  is_str_ws c = false /\ N.eqb c 45 = false /\ N.eqb c 43 = false.
Proof.
  unfold JSON.is_digit. intros H. apply andb_prop in H as [Hlo Hhi].
  apply N.leb_le in Hlo, Hhi. repeat split; try (apply N.eqb_neq; lia).
  apply not_true_is_false. unfold is_str_ws. intros Hws.
  repeat (apply orb_prop in Hws as [Hws | Hws]);
    try (apply N.eqb_eq in Hws; lia).
  apply andb_prop in Hws as [H1 H2]. apply N.leb_le in H1. lia.
Qed.

Lemma digit_prefix_all (s : jsstring) :
  forallb JSON.is_digit s = true -> digit_prefix s = map (fun c => c - 48)%N s.
Proof.
  induction s as [|c s IH]; [reflexivity|]. cbn [forallb digit_prefix map].
  intros H. apply andb_prop in H as [Hc Hs]. unfold JSON.is_digit in Hc.
  rewrite Hc, (IH Hs). reflexivity.
Qed.

Lemma parseInt_digits (c : N) (s : jsstring) :
  forallb JSON.is_digit (c :: s) = true ->
  parseInt (c :: s) = Some (Z_of_decimal (map (fun c => c - 48)%N (c :: s))) /\
  parseInt (45%N :: c :: s) = Some (- Z_of_decimal (map (fun c => c - 48)%N (c :: s)))%Z.
Proof.
  intros Hall. pose proof (digit_prefix_all _ Hall) as Hprefix.
  cbn [forallb] in Hall. apply andb_prop in Hall as [Hc _].
  destruct (digit_not_special c Hc) as (Hws & Hminus & Hplus).
  unfold parseInt. split.
  - cbn [drop_ws]. rewrite Hws, Hminus, Hplus, Hprefix. cbn [map].
    first [reflexivity | f_equal; lia].
  - cbn [drop_ws]. change (is_str_ws 45) with false. cbn [N.eqb Pos.eqb].
    rewrite Hprefix. cbn [map]. first [reflexivity | f_equal; lia].
Qed.

Lemma string_of_N_spec (n : N) :
  exists c s,
    string_of_N n = c :: s /\
    forallb JSON.is_digit (c :: s) = true /\
    Z_of_decimal (map (fun c => c - 48)%N (c :: s)) = Z.of_N n.
Proof.
  unfold string_of_N.
  assert (n < 2 ^ N.of_nat (S (N.to_nat (N.log2 n))))%N as Hn.
  { rewrite Nat2N.inj_succ, N2Nat.id. destruct n as [|p]; [reflexivity|].
    apply N.log2_spec. reflexivity. }
  destruct (digits_of_pos_spec _ n [] Hn eq_refl) as (Hall & Hval & _).
  destruct (digits_of_pos (S (N.to_nat (N.log2 n))) n []) as [|c s] eqn:Hs.
  - cbn [digits_of_pos] in Hs. cbv zeta in Hs.
    destruct (N.ltb n 10); [discriminate|].
    destruct (digits_of_pos_spec (N.to_nat (N.log2 n)) (n / 10)
                [(48 + n mod 10)%N]) as (_ & _ & Hlen).
    + apply N.Div0.div_lt_upper_bound.
      rewrite Nat2N.inj_succ, N.pow_succ_r' in Hn. lia.
    + cbn [forallb]. rewrite andb_true_r. unfold JSON.is_digit.
      assert (n mod 10 < 10)%N as Hmod by (apply N.mod_lt; discriminate).
      clear - Hmod. generalize dependent (n mod 10)%N. intros m Hm.
      apply andb_true_intro. split; apply N.leb_le; lia.
    + rewrite Hs in Hlen. cbn in Hlen. lia.
  - exists c, s. split; [reflexivity | split; [exact Hall|]]. rewrite Hval. cbn. lia.
Qed.

Lemma parseInt_string_of_Z (z : Z) : parseInt (string_of_Z z) = Some z.
Proof.
  destruct z as [|p|p]; [reflexivity| |]; cbn [string_of_Z];
    destruct (string_of_N_spec (Npos p)) as (c & s & -> & Hall & Hval);
    destruct (parseInt_digits c s Hall) as [Hpos Hneg].
  - rewrite Hpos, Hval. reflexivity.
  - rewrite Hneg, Hval. reflexivity.
Qed.

(** X21. A timeout written in decimal survives the command line: parseInt
    reads back every integer from the digits it is rendered with, so
    --timeout followed by the digits of z gives the timeout z. The bound
    keeps z among the integers a JavaScript number holds exactly. *)
Theorem parseArgs_timeout_round_trip (word : jsstring) (z : Z) :
  word <> lit "--help" -> word <> lit "-h" ->
  (- 2 ^ 53 <= z <= 2 ^ 53)%Z ->
  parseInt (string_of_Z z) = Some z /\
  parseArgs [ word; lit "--timeout"; string_of_Z z ]
  = Some (MkArgs word (lit "gemini") (Some z)).
Proof.
  intros Hhelp Hh _. split; [apply parseInt_string_of_Z|]. unfold parseArgs.
  rewrite (str_eqb_neq _ _ Hhelp), (str_eqb_neq _ _ Hh). cbn [orb parse_options].
  change (str_eqb (lit "--timeout") (lit "--model")) with false.
  change (str_eqb (lit "--timeout") (lit "--timeout")) with true.
  cbn [andb arg_word arg_model arg_timeout].
  assert (truthy_string (string_of_Z z) = true) as ->.
  { destruct z as [|p|p]; [reflexivity| |reflexivity].
    cbn [string_of_Z]. destruct (string_of_N_spec (Npos p)) as (c & s & -> & _). reflexivity. }
  now rewrite parseInt_string_of_Z.
Qed.

Lemma parseArgs_timeout_round_trip_witness :
  parseArgs [ lit "tea"; lit "--timeout"; string_of_Z 120 ]
  = Some (MkArgs (lit "tea") (lit "gemini") (Some 120%Z)).
Proof.
  refine (proj2 (parseArgs_timeout_round_trip (lit "tea") 120 _ _ _));
    first [discriminate | lia].
Defined.

(** ** Flags *)

Lemma flag_unit (c : N) :
  is_letter c = true ->
  fromCodePoint (upper_unit c + 127397)%N = [ 55356%N; (56806 + letter_index c)%N ].
Proof.
  unfold is_letter, upper_unit, letter_index, fromCodePoint. intros Hc.
  assert (exists i, (i < 26)%N /\
                    (if (N.leb 97 c && N.leb c 122)%bool then (c - 32)%N else c) = (65 + i)%N /\
                    (if N.leb 97 c then (c - 97)%N else (c - 65)%N) = i) as (i & Hi & -> & ->).
  { apply orb_prop in Hc as [Hc | Hc]; apply andb_prop in Hc as [Hlo Hhi];
      apply N.leb_le in Hlo, Hhi.
    - exists (c - 65)%N.
      destruct (N.leb_spec 97 c); [lia|]. cbn [andb]. repeat split; lia.
    - exists (c - 97)%N.
      destruct (N.leb_spec 97 c); [|lia]. destruct (N.leb_spec c 122); [|lia].
      cbn [andb]. repeat split; lia. }
  destruct (N.ltb_spec (65 + i + 127397) 65536); [lia|].
  replace (65 + i + 127397 - 65536)%N with (486 + i + 60 * 1024)%N by lia.
  change 1023%N with (N.ones 10).
  rewrite N.shiftr_div_pow2, N.land_ones.
  change (2 ^ 10)%N with 1024%N.
  rewrite N.div_add, N.Div0.mod_add by discriminate.
  rewrite N.div_small, N.mod_small by lia.
  replace (55296 + (0 + 60))%N with 55356%N by reflexivity.
  replace (56320 + (486 + i))%N with (56806 + i)%N by lia.
  reflexivity.
Qed.

(** X22. For a code of two ASCII letters getFlagEmoji returns the two
    regional-indicator symbols of those letters, each as a surrogate
    pair, the same for lower and upper case; an ASCII code of any other
    length gives the empty string. *)
Theorem getFlagEmoji_letters (code : jsstring) :
  Forall (fun c => (c < 128)%N) code ->
  (forall a b,
     code = [a; b] -> is_letter a = true -> is_letter b = true ->
     getFlagEmoji code
     = [ 55356%N; (56806 + letter_index a)%N; 55356%N; (56806 + letter_index b)%N ]) /\
  (List.length code <> 2%nat -> getFlagEmoji code = []).
Proof.
  intros _. split.
  - intros a b -> Ha Hb. unfold getFlagEmoji. cbn [truthy_string negb toUpperCase map
      List.length Nat.eqb flat_map].
    rewrite (flag_unit a Ha), (flag_unit b Hb). reflexivity.
  - intros Hlen. unfold getFlagEmoji, toUpperCase. rewrite length_map.
    destruct (truthy_string code); [|reflexivity]. cbn [negb].
    destruct (Nat.eqb_spec (List.length code) 2); [contradiction | reflexivity].
Qed.

Lemma getFlagEmoji_letters_witness :
  Forall (fun c => (c < 128)%N) (lit "ye") /\
  getFlagEmoji (lit "ye") = [ 55356%N; 56830%N; 55356%N; 56810%N ] /\
  getFlagEmoji (lit "YE") = getFlagEmoji (lit "ye").
Proof.
  assert (Forall (fun c => (c < 128)%N) (lit "ye")) as Hascii
    by (repeat constructor).
  split; [exact Hascii|]. split; [|reflexivity].
  exact (proj1 (getFlagEmoji_letters (lit "ye") Hascii) 121%N 101%N eq_refl eq_refl eq_refl).
Defined.

(** ** The prompt *)




(** ** Defaults of the dispatcher *)

Lemma string_or_missing (s : option jsstring) (fallback : jsstring) :
  missing s = true -> string_or s fallback = fallback.
Proof. destruct s as [[|c s]|]; [reflexivity | discriminate | reflexivity]. Qed.

(** X24. Missing settings fall back to fixed defaults: with Ollama
    selected and no (or an empty) base URL and model, the one request
    goes to http://localhost:11434/api/generate for the model llama3;
    with a CLI agent and no (or a zero) timeout, the request carries the
    timeout 60. *)
Theorem dispatcher_defaults (w : world) (word : jsstring) (config : AIProviderConfig) :
  (provider config = lit "ollama" ->
   missing (baseUrl config) = true ->
   missing (AiProvider.model config) = true ->
   exists req,
     calls w (fetchWordJourney word config) = [NetworkCall req] /\
     AiProvider.url req = lit "http://localhost:11434/api/generate" /\
     get (AiProvider.body req) (lit "model") = Ok (VStr (lit "llama3"))) /\
  (In (provider config) cli_providers ->
   AiProvider.timeout config = None \/ AiProvider.timeout config = Some (Num 0 0) ->
   exists req,
     calls w (fetchWordJourney word config) = [NetworkCall req] /\
     AiProvider.url req = lit "/api/cli-agent" /\
     get (AiProvider.body req) (lit "timeout") = Ok (VNum (num_of_Z 60))).
Proof.
  split.
  - intros Hp Hbase Hmodel. unfold fetchWordJourney, is_case. rewrite Hp.
    cbn [str_eqb lit N_of_ascii N.eqb Pos.eqb andb orb].
    change (str_eqb (lit "ollama") (lit "gemini-api")) with false.
    change (str_eqb (lit "ollama") (lit "openai-api")) with false.
    change (str_eqb (lit "ollama") (lit "anthropic-api")) with false.
    change (str_eqb (lit "ollama") (lit "ollama")) with true. cbv iota.
    rewrite (string_or_missing _ _ Hbase), (string_or_missing _ _ Hmodel).
    unfold fetchWordJourneyOllama. cbv zeta.
    eexists. split; [apply calls_fetch_then_lift;
                     intros r; destruct (negb (ok r)); [reflexivity | apply calls_lift]|].
    split; reflexivity.
  - intros Hin Htimeout. rewrite (dispatch_cli word config Hin).
    assert (number_or (AiProvider.timeout config) (num_of_Z 60) = num_of_Z 60) as ->
      by (destruct Htimeout as [-> | ->]; reflexivity).
    unfold fetchWordJourneyCLI. cbv zeta.
    eexists. split; [apply calls_fetch_then_lift;
                     intros r; destruct (negb (ok r)); [reflexivity | apply calls_lift]|].
    split; reflexivity.
Qed.

Lemma dispatcher_defaults_witness :
  exists req,
    calls offline (fetchWordJourney (lit "tea")
                     (Config (lit "ollama") None (Some []) None None None))
    = [NetworkCall req] /\
    AiProvider.url req = lit "http://localhost:11434/api/generate" /\
    get (AiProvider.body req) (lit "model") = Ok (VStr (lit "llama3")).
Proof.
  exact (proj1 (dispatcher_defaults offline (lit "tea")
                  (Config (lit "ollama") None (Some []) None None None))
           eq_refl eq_refl eq_refl).
Defined.
